(** * classifier: command-line shell and utilities

    A shallow embedding of [classifier/__init__.py] and
    [classifier/utils.py] and the properties of the dispatch shell, the
    version resolver, the file opener and the grouping helper.

    The program runs on Python 3 ([setup.py] refuses anything older and
    [utils.py] uses [bz2.open]); library calls are modelled with the
    behaviour they have there. A [str] is a [string] of code points
    below 256, a [bytes] object a list of bytes. *)

From Stdlib Require Import ZArith Ascii String List Sorted Permutation.
From stdpp Require Import base option list gmap strings sorting.

Local Open Scope string_scope.

(** * Python basics *)

Module Py.

(** Exception classes that occur in the program and its collaborators.
    All of them derive from [Exception]. *)
Inductive exn_class :=
| OSError | CalledProcessError | TypeError | ValueError | AttributeError
| KeyError | IndexError | ImportError | DistributionNotFound
| VersionConflict | RuntimeError | ArgumentError.

Record exn := Exn { exn_cls : exn_class; exn_msg : string }.

(** How a call ends: it returns, raises, or leaves the process through
    [sys.exit] (argparse does so after a help text or a usage error). *)
Inductive outcome (A : Type) :=
| Returned (a : A)
| Raised (e : exn)
| Exited (status : Z).
Arguments Returned {A} a.
Arguments Raised {A} e.
Arguments Exited {A} status.

(** How a call to a collaborator ends: with a value or an exception. *)
Inductive result (A : Type) :=
| Ok (a : A)
| Err (e : exn).
Arguments Ok {A} a.
Arguments Err {A} e.

Definition of_result {A} (r : result A) : outcome A :=
  match r with Ok a => Returned a | Err e => Raised e end.

#[global] Instance exn_class_eq_dec : EqDecision exn_class.
Proof. solve_decision. Defined.

(** [c in s] for a one-character string [c]. *)
Definition char_in (c : ascii) (s : string) : bool :=
  existsb (Ascii.eqb c) (list_ascii_of_string s).

Fixpoint is_prefix (p l : list ascii) : bool :=
  match p, l with
  | [], _ => true
  | _ :: _, [] => false
  | a :: p', b :: l' => Ascii.eqb a b && is_prefix p' l'
  end.

(** [s.endswith(suffix)]. *)
Definition endswith (s suffix : string) : bool :=
  is_prefix (rev (list_ascii_of_string suffix)) (rev (list_ascii_of_string s)).

(** [s.startswith(p)]. *)
Definition startswith (s p : string) : bool :=
  is_prefix (list_ascii_of_string p) (list_ascii_of_string s).

End Py.
Import Py.

(** * classifier/utils.py *)

Module utils.

Inductive codec := Bz2 | Gzip | Plain.

(** File objects: the three standard streams of [sys], and what
    [bz2.open], [gzip.open] and the builtin [open] return. *)
Inductive stream :=
| StdIn | StdOut | StdErr
| FileObject (c : codec) (name mode : string).

#[global] Instance codec_eq_dec : EqDecision codec.
Proof. solve_decision. Defined.
#[global] Instance stream_eq_dec : EqDecision stream.
Proof. solve_decision. Defined.

(** What [open_file] is applied to: a file object or a string. *)
Inductive target :=
| Stream (s : stream)
| Name (f : string).

(** The file system, as far as opening goes: [None] when the open
    succeeds, the error it raises otherwise. *)
Record FileSystem := { fs_open : codec -> string -> string -> option exn }.

(** [bz2.open(f, mode)], [gzip.open(f, mode)], [open(f, mode)]. *)
Definition open_with (fs : FileSystem) (c : codec) (f mode : string)
  : outcome stream :=
  match fs_open fs c f mode with
  | None => Returned (FileObject c f mode)
  | Some e => Raised e
  end.

Definition open_file (fs : FileSystem) (mode : string) (f : target)
  : outcome stream :=
  match f with
  | Stream StdOut => Returned StdOut
  | Stream StdIn => Returned StdIn
  | Stream _ =>
      (* a file object is not equal to '-' and has no endswith *)
      Raised (Exn AttributeError "object has no attribute 'endswith'")
  | Name f =>
      if String.eqb f "-" then
        Returned (if char_in "r" mode then StdIn else StdOut)
      else if endswith f ".bz2" then open_with fs Bz2 f mode
      else if endswith f ".gz" then open_with fs Gzip f mode
      else open_with fs Plain f mode
  end.

Definition opener (fs : FileSystem) (mode : string)
  : target -> outcome stream :=
  open_file fs mode.

(** ** get_compression *)

(** The index of the last occurrence of the character [c]. *)
Fixpoint rfind (c : ascii) (l : list ascii) : option nat :=
  match l with
  | [] => None
  | a :: l' =>
      match rfind c l' with
      | Some i => Some (S i)
      | None => if Ascii.eqb a c then Some 0%nat else None
      end
  end.

(** [p.rfind(c)]: -1 when [c] does not occur. *)
Definition str_rfind (p : list ascii) (c : ascii) : Z :=
  match rfind c p with
  | Some i => Z.of_nat i
  | None => (-1)%Z
  end.

(** [os.path.splitext(p)] of posixpath: the extension starts at the
    last dot, provided that dot comes after the last slash and some
    character between the two is not a dot. *)
Definition splitext (p : string) : string * string :=
  let l := list_ascii_of_string p in
  let sepIndex := str_rfind l "/" in
  let dotIndex := str_rfind l "." in
  if (sepIndex <? dotIndex)%Z then
    (* skip all leading dots *)
    let filename := take (Z.to_nat (dotIndex - (sepIndex + 1)))
                         (drop (Z.to_nat (sepIndex + 1)) l) in
    if existsb (fun c => negb (Ascii.eqb c ".")) filename
    then (string_of_list_ascii (take (Z.to_nat dotIndex) l),
          string_of_list_ascii (drop (Z.to_nat dotIndex) l))
    else (p, "")
  else (p, "").

Definition compress_ops : gmap string string :=
  {[ ".gz" := "gzip"; ".bz2" := "bz2" ]}.

Definition get_compression (io : target) : outcome (option string) :=
  match io with
  | Stream StdOut => Returned None
  | Stream _ =>
      (* os.path.splitext of a file object *)
      Raised (Exn TypeError "expected str, bytes or os.PathLike object")
  | Name io =>
      let ext := (splitext io).2 in
      Returned (compress_ops !! ext)
  end.

(** ** groupbyl *)

Section Grouping.
Context {A K : Type} `{Countable K}.
(** [key(a) < key(b)], the only comparison [sorted] makes; the
    equality [itertools.groupby] tests is the decidable equality of
    [K]. *)
Variable ltb : K -> K -> bool.
Variable key : A -> K.

(** Insertion of [x], which precedes every element of [l] in the
    input, into the sorted [l]: it passes only strictly smaller
    keys, so it stays in front of the elements with its own key. *)
Fixpoint insert_by (x : A) (l : list A) : list A :=
  match l with
  | [] => [x]
  | y :: l' =>
      if ltb (key y) (key x) then y :: insert_by x l' else x :: y :: l'
  end.

(** [sorted(li, key=key)]: a stable sort. *)
Fixpoint sorted (li : list A) : list A :=
  match li with
  | [] => []
  | x :: li' => insert_by x (sorted li')
  end.

(** The loop of [itertools.groupby]: [tgtkey] is the key of the run
    being collected, [run] its members so far (latest first). *)
Fixpoint groupby_from (tgtkey : K) (run : list A) (l : list A)
  : list (K * list A) :=
  match l with
  | [] => [(tgtkey, rev run)]
  | y :: l' =>
      if decide (key y = tgtkey) then groupby_from tgtkey (y :: run) l'
      else (tgtkey, rev run) :: groupby_from (key y) [y] l'
  end.

(** [((g, list(l)) for g, l in itertools.groupby(groups, key=key))] *)
Definition groupby (l : list A) : list (K * list A) :=
  match l with
  | [] => []
  | x :: l' => groupby_from (key x) [x] l'
  end.

(** [dict(pairs)]: the pairs are stored in order, a later pair
    replaces an earlier one with the same key. *)
Definition dict (pairs : list (K * list A)) : gmap K (list A) :=
  fold_left (fun d kv => <[kv.1 := kv.2]> d) pairs ∅.

Inductive groups :=
| Pairs (gs : list (K * list A))
| Dict (d : gmap K (list A)).

Definition groupbyl (li : list A) (as_dict : bool) : groups :=
  let gs := sorted li in
  let gs := groupby gs in
  if as_dict then Dict (dict gs) else Pairs gs.

End Grouping.

End utils.

(** * The process: logging configuration and what has been written *)

Module logging.
Import utils.

Inductive level := DEBUG | INFO | WARNING | ERROR.

Definition levelno (l : level) : Z :=
  match l with DEBUG => 10 | INFO => 20 | WARNING => 30 | ERROR => 40 end.

(** The handler [logging.basicConfig] installs on the root logger. *)
Record config := Config {
  cfg_stream : stream;
  cfg_format : string;
  cfg_level : level
}.

(** What the process writes. [HandlerError] is the report that
    [Handler.handleError] prints on standard error for a record its
    handler could not write. *)
Inductive event :=
| LogLine (to : stream) (format : string) (lvl : level) (msg : string)
| HandlerError (lvl : level) (msg : string)
| HelpText (text : string)
| VersionText (text : string)
| UsageError (msg : string).

Record State := mkState {
  root_handler : option config;
  written : list event
}.

(** A fresh process: logging not configured, nothing written. *)
Definition initial : State := mkState None [].

(** Computations of the program: they read and change the process
    state and end as an [outcome]. *)
Definition M (A : Type) : Type := State -> outcome A * State.

Definition ret {A} (a : A) : M A := fun s => (Returned a, s).

Definition bind {A B} (m : M A) (k : A -> M B) : M B :=
  fun s =>
    match m s with
    | (Returned a, s') => k a s'
    | (Raised e, s') => (Raised e, s')
    | (Exited c, s') => (Exited c, s')
    end.

Definition raise {A} (e : exn) : M A := fun s => (Raised e, s).
Definition exit {A} (status : Z) : M A := fun s => (Exited status, s).
Definition lift {A} (o : outcome A) : M A := fun s => (o, s).

(** [try: m  except Exception as e: h e] *)
Definition try_except {A} (m : M A) (h : exn -> M A) : M A :=
  fun s =>
    match m s with
    | (Raised e, s') => h e s'
    | r => r
    end.

Definition write (ev : event) : M unit :=
  fun s => (Returned tt, mkState (root_handler s) (written s ++ [ev])).

(** [logging.basicConfig(stream=, format=, level=)]: does nothing when
    the root logger already has a handler. *)
Definition basicConfig (c : config) : M unit :=
  fun s =>
    match root_handler s with
    | Some _ => (Returned tt, s)
    | None => (Returned tt, mkState (Some c) (written s))
    end.

Definition BASIC_FORMAT : string := "%(levelname)s:%(name)s:%(message)s".

(** The level of the root logger: WARNING until configured. *)
Definition root_level (s : State) : level :=
  match root_handler s with
  | Some c => cfg_level c
  | None => WARNING
  end.

(** Whether [stream.write(line)] takes a [str]: the stream is open
    for writing and in text mode. What [gzip.open] and [bz2.open]
    return is binary unless the mode has a t. *)
Definition accepts_text (f : stream) : bool :=
  match f with
  | StdOut | StdErr => true
  | StdIn => false
  | FileObject c _ mode =>
      (char_in "w" mode || char_in "a" mode || char_in "x" mode
       || char_in "+" mode)
      && match c with
         | Plain => negb (char_in "b" mode)
         | Bz2 | Gzip => char_in "t" mode
         end
  end.

(** [StreamHandler.emit]: the line is written to the stream; when the
    write raises, the error is reported and the record is lost. *)
Definition emit (c : config) (lvl : level) (msg : string) : M unit :=
  if accepts_text (cfg_stream c)
  then write (LogLine (cfg_stream c) (cfg_format c) lvl msg)
  else write (HandlerError lvl msg).

(** [log.<lvl>(msg)] on the module logger [log], which has no level
    and no handler of its own: the root logger's level decides, the
    root handler writes, and without one the handler of last resort
    writes the bare message to standard error. *)
Definition logger_log (lvl : level) (msg : string) : M unit :=
  fun s =>
    if (levelno (root_level s) <=? levelno lvl)%Z then
      match root_handler s with
      | Some c => emit c lvl msg s
      | None => write (LogLine StdErr "%(message)s" lvl msg) s
      end
    else (Returned tt, s).

(** [logging.<lvl>(msg)], the module-level function: configures the
    root logger with the defaults when it has no handler yet. *)
Definition logging_log (lvl : level) (msg : string) : M unit :=
  bind (basicConfig (Config StdErr BASIC_FORMAT WARNING))
       (fun _ => logger_log lvl msg).

End logging.
Import logging.

Notation "'let*' x ':=' m 'in' k" := (bind m (fun x => k))
  (at level 10, x pattern, m at level 100, k at level 200).

(** * argparse, for the grammar this program builds

    Arguments are recognised by their exact option strings. argparse
    also expands joined short options ([-vv]), unambiguous prefixes of
    long options ([--verb]) and [--opt=value]; such tokens are outside
    this model, which passes them on like any unknown option, and the
    properties below are stated for command lines without them. *)

Module argparse.
Import utils.

(** Attribute values of a namespace. *)
Inductive value :=
| VNone
| VInt (n : Z)
| VStr (s : string)
| VFile (f : stream)
| VList (l : list string).

#[global] Instance value_eq_dec : EqDecision value.
Proof. solve_decision. Defined.

Abbreviation Namespace := (gmap string value).

(** [type=]: the default (the string itself) or [utils.opener(mode)]. *)
Inductive arg_type := AsStr | AsFile (mode : string).

Inductive action_kind :=
| Store (ty : arg_type)        (* action='store', one argument *)
| Count                        (* action='count' *)
| StoreConst (c : value)       (* action='store_const' *)
| Help                         (* action='help' *)
| Version (v : string)         (* action='version' *)
| Positional (nargs1 : bool).  (* a positional; nargs=1 makes a list *)

(** What [add_argument] records. [arg_default = None] is SUPPRESS,
    [arg_help = None] an argument added without [help=]. *)
Record Argument := mkArgument {
  option_strings : list string;
  arg_dest : string;
  arg_action : action_kind;
  arg_default : option value;
  arg_help : option string
}.

(** A parser made by [subparsers.add_parser]. *)
Record SubParser := mkSubParser {
  sp_name : string;
  sp_description : option string;
  sp_arguments : list Argument
}.

(** The object [parser.add_subparsers(dest=...)] returns. *)
Record Subparsers := mkSubparsers {
  sub_dest : string;
  choices_actions : list (string * string);   (* name, help: the listing *)
  name_parser_map : gmap string SubParser
}.

Record ArgumentParser := mkParser {
  description : string;
  arguments : list Argument;
  subparsers : option Subparsers
}.

Definition add_argument (p : ArgumentParser) (a : Argument) : ArgumentParser :=
  mkParser (description p) (arguments p ++ [a]) (subparsers p).

Definition sp_add_argument (p : SubParser) (a : Argument) : SubParser :=
  mkSubParser (sp_name p) (sp_description p) (sp_arguments p ++ [a]).

(** The [-h] a parser made with [add_help=True] gives itself. *)
Definition help_argument : Argument :=
  mkArgument ["-h"; "--help"] "help" Help None
             (Some "show this help message and exit").

(** [subparsers.add_parser(name, help=, description=)]: the new
    parser has its own [-h]. For a name that has a parser already,
    argparse raises an ArgumentError since Python 3.11 ([strict]) and
    replaced the entry before. *)
Definition add_parser (strict : bool) (sub : Subparsers) (name help : string)
           (descr : option string) : result (Subparsers * SubParser) :=
  if strict && bool_decide (is_Some (name_parser_map sub !! name))
  then Err (Exn ArgumentError ("conflicting subparser: " ++ name))
  else
    let p := mkSubParser name descr [help_argument] in
    Ok (mkSubparsers (sub_dest sub) (choices_actions sub ++ [(name, help)])
                     (<[name := p]> (name_parser_map sub)), p).

(** The parser's content after its arguments were added (the object
    is mutated in place in the source). *)
Definition set_parser (sub : Subparsers) (name : string) (p : SubParser)
  : Subparsers :=
  mkSubparsers (sub_dest sub) (choices_actions sub)
               (<[name := p]> (name_parser_map sub)).

Definition format_argument (a : Argument) : string :=
  String.concat ", " (option_strings a) ++ " " ++ arg_dest a ++ " "
                ++ default "" (arg_help a).

(** The help text, from what it is made of (the layout of argparse's
    formatter is not reproduced). *)
Definition format_help (descr : option string) (args : list Argument)
           (choices : list (string * string)) : string :=
  String.concat (String "010" "")
    (default "" descr
     :: map format_argument args
     ++ map (fun c => c.1 ++ " " ++ c.2) choices).

(** A token that argparse takes for an option, among the tokens of
    the command lines covered here (words and the option strings
    written out in full): it starts with [-] and is not [-] itself. *)
Definition optionlike (tok : string) : bool :=
  startswith tok "-" && negb (String.eqb tok "-").

(** The tokens of the command lines this model covers: words, and
    the option strings of the program's own options written out in
    full. *)
Definition exact_token (tok : string) : bool :=
  negb (startswith tok "-")
  || bool_decide (tok ∈ ["-l"; "--log"; "-v"; "--verbose"; "-q"; "--quiet";
                         "-h"; "--help"; "-V"; "--version"]).

Definition find_argument (args : list Argument) (tok : string)
  : option Argument :=
  List.find (fun a => bool_decide (tok ∈ option_strings a)) args.

Definition is_positional (a : Argument) : bool :=
  match arg_action a with Positional _ => true | _ => false end.

(** Defaults are set, in the order of the arguments, for the
    attributes the namespace does not have yet. *)
Definition add_defaults (args : list Argument) (ns : Namespace) : Namespace :=
  fold_left
    (fun ns a =>
       match arg_default a, ns !! arg_dest a with
       | Some v, None => <[arg_dest a := v]> ns
       | _, _ => ns
       end) args ns.

(** [parser.error(msg)]: usage and message, exit status 2. *)
Definition usage_error {A} (msg : string) : M A :=
  let* _ := write (UsageError msg) in exit 2.

(** The [type] conversion; a TypeError or ValueError of the
    conversion is a usage error, anything else propagates. *)
Definition convert (fs : FileSystem) (ty : arg_type) (s : string) : M value :=
  match ty with
  | AsStr => ret (VStr s)
  | AsFile mode =>
      match opener fs mode (Name s) with
      | Returned f => ret (VFile f)
      | Raised e =>
          if bool_decide (exn_cls e = TypeError \/ exn_cls e = ValueError)
          then usage_error "invalid value" else raise e
      | Exited c => exit c
      end
  end.

(** [count = getattr(namespace, dest, None)]; [None] counts as 0. *)
Definition count_up (ns : Namespace) (d : string) : M value :=
  match ns !! d with
  | None | Some VNone => ret (VInt 1)
  | Some (VInt n) => ret (VInt (n + 1))
  | Some _ => raise (Exn TypeError "unsupported operand type(s) for +")
  end.

Definition positional_value (a : Argument) (tok : string) : value :=
  match arg_action a with
  | Positional true => VList [tok]
  | _ => VStr tok
  end.

(** The parse loop: [args] are the parser's arguments, [pending] its
    positionals not yet filled, [sub] its subparsers, [text] its help
    text. The result is the namespace and the unrecognised tokens. *)
Fixpoint parse_loop (fs : FileSystem) (text : string) (args pending : list Argument)
         (sub : option Subparsers) (argv : list string) (ns : Namespace)
         {struct argv} : M (Namespace * list string) :=
  match argv with
  | [] =>
      match pending with
      | [] => ret (ns, [])
      | _ :: _ => usage_error "the following arguments are required"
      end
  | tok :: rest =>
      match find_argument args tok with
      | Some a =>
          match arg_action a with
          | Store ty =>
              match rest with
              | v :: rest' =>
                  if optionlike v then usage_error "expected one argument"
                  else
                    let* x := convert fs ty v in
                    parse_loop fs text args pending sub rest'
                               (<[arg_dest a := x]> ns)
              | [] => usage_error "expected one argument"
              end
          | Count =>
              let* n := count_up ns (arg_dest a) in
              parse_loop fs text args pending sub rest (<[arg_dest a := n]> ns)
          | StoreConst c =>
              parse_loop fs text args pending sub rest (<[arg_dest a := c]> ns)
          | Help => let* _ := write (HelpText text) in exit 0
          | Version v => let* _ := write (VersionText v) in exit 0
          | Positional _ =>
              let* r := parse_loop fs text args pending sub rest ns in
              ret (r.1, tok :: r.2)
          end
      | None =>
          if optionlike tok then
            let* r := parse_loop fs text args pending sub rest ns in
            ret (r.1, tok :: r.2)
          else
            match pending with
            | p :: pending' =>
                parse_loop fs text args pending' sub rest
                           (<[arg_dest p := positional_value p tok]> ns)
            | [] =>
                match sub with
                | None =>
                    let* r := parse_loop fs text args pending sub rest ns in
                    ret (r.1, tok :: r.2)
                | Some sp =>
                    (* the subparsers action takes all that is left *)
                    let ns := <[sub_dest sp := VStr tok]> ns in
                    match name_parser_map sp !! tok with
                    | None => usage_error "invalid choice"
                    | Some p =>
                        let* r :=
                          parse_loop fs
                            (format_help (sp_description p) (sp_arguments p) [])
                            (sp_arguments p)
                            (filter is_positional (sp_arguments p))
                            None rest (add_defaults (sp_arguments p) ∅) in
                        ret (r.1 ∪ ns, r.2)
                    end
                end
            end
      end
  end.

Definition parser_help (p : ArgumentParser) : string :=
  format_help (Some (description p)) (arguments p)
              (match subparsers p with
               | Some sp => choices_actions sp
               | None => []
               end).

Definition subparsers_default (p : ArgumentParser) (ns : Namespace) : Namespace :=
  match subparsers p with
  | Some sp =>
      match ns !! sub_dest sp with
      | None => <[sub_dest sp := VNone]> ns
      | Some _ => ns
      end
  | None => ns
  end.

(** [parser.parse_known_args(argv, namespace)] *)
Definition parse_known_args (fs : FileSystem) (p : ArgumentParser)
           (argv : list string) (ns : Namespace) : M (Namespace * list string) :=
  parse_loop fs (parser_help p) (arguments p)
             (filter is_positional (arguments p)) (subparsers p) argv
             (subparsers_default p (add_defaults (arguments p) ns)).

(** [parser.parse_args(argv, namespace)]: unrecognised tokens are a
    usage error. *)
Definition parse_args (fs : FileSystem) (p : ArgumentParser)
           (argv : list string) (ns : Namespace) : M Namespace :=
  let* r := parse_known_args fs p argv ns in
  match r.2 with
  | [] => ret r.1
  | _ :: _ => usage_error "unrecognized arguments"
  end.

End argparse.

(** * classifier/__init__.py *)

Module classifier.
Import utils argparse.

(** An imported subcommand module, as the shell uses it: its
    docstring ([None] for a module without one), [build_parser], which
    changes the parser it is given and may raise, log or exit, and
    [action] ([None] for a module that has none). *)
Record Plugin := mkPlugin {
  mod_doc : option string;
  mod_build_parser : SubParser -> M SubParser;
  mod_action : option (Namespace -> M value)
}.

(** The package [classifier.subcommands]. [pkgutil.iter_modules]
    yields every name once. *)
Record Subcommands := mkSubcommands {
  sc_name : string;                            (* subcommands.__name__ *)
  sc_modules : list string;                    (* pkgutil.iter_modules(subcommands.__path__) *)
  sc_build_parser : SubParser -> M SubParser;  (* subcommands.build_parser *)
  sc_action : Namespace -> M Namespace;        (* subcommands.action *)
  sc_unique : NoDup sc_modules
}.

(** What the program finds around it. *)
Record World := mkWorld {
  fs : FileSystem;
  install_dir : string;                               (* os.path.dirname(__file__) *)
  check_output : list string -> result (list Byte.byte);  (* subprocess.check_output *)
  pkg_version : result string;       (* pkg_resources.require("classifier")[0].version *)
  subcommands : Subcommands;
  import_module : string -> result Plugin;           (* importlib.import_module *)
  py311 : bool                  (* the interpreter is Python 3.11 or later *)
}.

(** The docstring of the module, [__doc__]. *)
Definition doc : string :=
  String.concat (String "010" "")
    [""; "Tools for microbial sequence analysis and classification."; "";
     "Assembles subcommands and provides top-level script."; ""].

(** ** setup_logging *)

Definition loglevel_table : gmap Z level :=
  {[ 0%Z := ERROR; 1%Z := WARNING; 2%Z := INFO; 3%Z := DEBUG ]}.

Definition setup_logging (namespace : Namespace) : M unit :=
  match namespace !! "verbosity" with
  | None => raise (Exn AttributeError "verbosity")
  | Some verbosity =>
      let loglevel :=
        match verbosity with
        | VInt v => default DEBUG (loglevel_table !! v)
        | _ => DEBUG
        end in
      match verbosity with
      | VInt v =>
          let logformat :=
            if (1 <? v)%Z
            then "%(levelname)s classifier %(lineno)s %(message)s"
            else "classifier %(message)s" in
          match namespace !! "log" with
          | Some (VFile f) => basicConfig (Config f logformat loglevel)
          | _ => raise (Exn AttributeError "log")
          end
      | _ => raise (Exn TypeError "'>' not supported")
      end
  end.

(** ** version *)

Definition git_cmds (w : World) : list (list string) :=
  [ ["git"; "-C"; install_dir w; "describe"; "--tags"];   (* >= 1.8.5 *)
    ["git"; "describe"; "--tags"] ].                      (* < 1.8.5 *)

(** The class of digits and the dot; below 256 the decimal digits
    are 0 to 9. *)
Definition is_digit_or_dot (c : ascii) : bool :=
  let n := nat_of_ascii c in
  ((48 <=? n)%nat && (n <=? 57)%nat) || Ascii.eqb c ".".

Fixpoint span (P : ascii -> bool) (l : list ascii) : list ascii * list ascii :=
  match l with
  | [] => ([], [])
  | c :: l' =>
      if P c then let (a, b) := span P l' in (c :: a, b) else ([], l)
  end.

Fixpoint after_v (l : list ascii) : option (list ascii) :=
  match l with
  | [] => None
  | c :: l' => if Ascii.eqb c "v" then Some l' else after_v l'
  end.

(** [re.search(git_re, s)] on a string. [git_re] is: the letter v,
    the group [tag] (digits and dots, any number), an optional
    hyphen, the group [commit] (digits and dots, any number), an
    optional hyphen, the rest of the line. The match starts at the
    first v; every later piece may be empty, so each group takes the
    longest run it can. The result is the pair of [tag] and
    [commit]. *)
Definition git_re_search (s : string) : option (string * string) :=
  match after_v (list_ascii_of_string s) with
  | None => None
  | Some r =>
      let (tag, r1) := span is_digit_or_dot r in
      let r2 := match r1 with
                | c :: r' => if Ascii.eqb c "-" then r' else r1
                | [] => r1
                end in
      let (commit, _) := span is_digit_or_dot r2 in
      Some (string_of_list_ascii tag, string_of_list_ascii commit)
  end.

(** The second argument of [re.search]. *)
Inductive subject := Text (s : string) | Bytes (b : list Byte.byte).

(** [re.search(git_re, subject)]: a string pattern does not apply to
    a bytes object. *)
Definition re_search (subj : subject) : outcome (option (string * string)) :=
  match subj with
  | Text s => Returned (git_re_search s)
  | Bytes _ =>
      Raised (Exn TypeError
                  "cannot use a string pattern on a bytes-like object")
  end.

(** The version a [describe] match resolves to. *)
Definition resolved (m : string * string) : string :=
  if String.eqb m.2 "" then m.1 else m.1 ++ ".dev" ++ m.2.

(** The body of the [try]: [check_output] returns bytes. *)
Definition describe (w : World) (cmd : list string) : M string :=
  let* git_ver := lift (of_result (check_output w cmd)) in
  let* git_search := lift (re_search (Bytes git_ver)) in
  match git_search with
  | None =>
      raise (Exn AttributeError "'NoneType' object has no attribute 'group'")
  | Some m => ret (resolved m)
  end.

(** The [for cmd in git_cmds] loop; it ends at the first success. *)
Fixpoint version_loop (w : World) (cmds : list (list string))
  : M (option string) :=
  match cmds with
  | [] => ret None
  | cmd :: cmds' =>
      let* _ := logging_log DEBUG (String.concat " " cmd) in
      let* r := try_except
                  (let* v := describe w cmd in ret (Some v))
                  (fun e => let* _ := logger_log DEBUG (exn_msg e) in ret None) in
      match r with
      | Some v => ret (Some v)
      | None => version_loop w cmds'
      end
  end.

(** [version or '0.0.0'] *)
Definition or_default (version : option string) : string :=
  match version with
  | Some v => if String.eqb v "" then "0.0.0" else v
  | None => "0.0.0"
  end.

(** The code after the loop, entered with what the loop resolved. *)
Definition after_queries (w : World) (version : option string) : M string :=
  let* version :=
    match version with
    | None =>
        match pkg_version w with
        | Ok v => ret (Some v)
        | Err e =>
            if bool_decide (exn_cls e = DistributionNotFound)
            then let* _ := logging_log WARNING (exn_msg e) in ret None
            else raise e
        end
    | Some v => ret (Some v)
    end in
  ret (or_default version).

Definition version (w : World) : M string :=
  let* version := version_loop w (git_cmds w) in
  after_queries w version.

(** ** The grammar *)

Definition version_argument (v : string) : Argument :=
  mkArgument ["-V"; "--version"] "version" (Version v) None
             (Some "Print the version number and exit").

Definition parse_version (w : World) (parser : ArgumentParser)
  : M ArgumentParser :=
  let* v := version w in
  ret (add_argument parser (version_argument v)).

Definition log_argument : Argument :=
  mkArgument ["-l"; "--log"] "log" (Store (AsFile "a"))   (* append *)
             (Some (VFile StdOut)) (Some "Send logging to a file").

Definition verbose_argument : Argument :=
  mkArgument ["-v"; "--verbose"] "verbosity" Count (Some (VInt 0))
             (Some "Increase verbosity of screen output (eg, -v is verbose, -vv more so)").

(** [store_const] without [default=] has the default [None]. *)
Definition quiet_argument : Argument :=
  mkArgument ["-q"; "--quiet"] "verbosity" (StoreConst (VInt 0))
             (Some VNone) (Some "Suppress output").

Definition parse_args (parser : ArgumentParser) : ArgumentParser :=
  let parser := add_argument parser log_argument in
  let parser := add_argument parser verbose_argument in
  let parser := add_argument parser quiet_argument in
  parser.

(** The parser of the first phase of [main]: the global options
    only. *)
Definition global_parser : ArgumentParser :=
  parse_args (mkParser doc [] None).

(** What the first phase keeps true of the namespace: [log] is a
    file object and [verbosity] an integer. *)
Definition well_formed (ns : Namespace) : Prop :=
  (exists f, ns !! "log" = Some (VFile f)) /\
  (exists k, ns !! "verbosity" = Some (VInt k)).

(** [c.isspace()], for a code point below 256. *)
Definition is_space (c : ascii) : bool :=
  let n := nat_of_ascii c in
  ((9 <=? n)%nat && (n <=? 13)%nat) || ((28 <=? n)%nat && (n <=? 32)%nat)
  || (n =? 133)%nat || (n =? 160)%nat.

(** [s.lstrip()] *)
Fixpoint lstrip (s : string) : string :=
  match s with
  | String c s' => if is_space c then lstrip s' else s
  | EmptyString => s
  end.

(** [s.split('\n', 1)[0]] *)
Fixpoint first_line (s : string) : string :=
  match s with
  | String c s' => if Ascii.eqb c "010" then "" else String c (first_line s')
  | EmptyString => ""
  end.

Abbreviation Actions := (gmap string (Namespace -> M value)).

(** [importlib.import_module('{}.{}'.format(subcommands.__name__, name))] *)
Definition imported (w : World) (name : string) : result Plugin :=
  import_module w (sc_name (subcommands w) ++ "." ++ name).

(** [mod.build_parser(subparser)] and then
    [subcommands.build_parser(subparser)], on the parser [add_parser]
    made for the module. *)
Definition build_parsers (w : World) (name : string) (plugin : Plugin)
           (d : string) : M SubParser :=
  let* subparser :=
    mod_build_parser plugin (mkSubParser name (Some d) [help_argument]) in
  sc_build_parser (subcommands w) subparser.

(** The body of the loop after the import (it is outside the [try]):
    the lines from [subparsers.add_parser] to [actions[name] =
    mod.action]. *)
Definition load (w : World) (name : string) (plugin : Plugin)
           (subparsers : Subparsers)
  : M (Subparsers * (Namespace -> M value)) :=
  let* d :=
    match mod_doc plugin with
    | Some d => ret d
    | None =>
        raise (Exn AttributeError
                   "'NoneType' object has no attribute 'lstrip'")
    end in
  let* r := lift (of_result (add_parser (py311 w) subparsers name
                                        (first_line (lstrip d)) (Some d))) in
  let* subparser := build_parsers w name plugin d in
  let* action :=
    match mod_action plugin with
    | Some a => ret a
    | None => raise (Exn AttributeError "module has no attribute 'action'")
    end in
  ret (set_parser r.1 name subparser, action).

(** The [for name in commands or modules] loop. *)
Fixpoint register (w : World) (names : list string)
         (subparsers : Subparsers) (actions : Actions)
  : M (Subparsers * Actions) :=
  match names with
  | [] => ret (subparsers, actions)
  | name :: names' =>
      match imported w name with
      | Err e =>
          let* _ := logger_log ERROR (exn_msg e) in
          register w names' subparsers actions
      | Ok plugin =>
          let* r := load w name plugin subparsers in
          register w names' r.1 (<[name := r.2]> actions)
      end
  end.

(** A module that registers: it has a docstring and an action, and
    the two [build_parser] return the parser [sp] and leave the
    process as it is. *)
Definition registers (w : World) (name : string) (plugin : Plugin)
           (d : string) (sp : SubParser) (a : Namespace -> M value) : Prop :=
  mod_doc plugin = Some d /\ mod_action plugin = Some a /\
  forall s, build_parsers w name plugin d s = (Returned sp, s).

(** Every module of [names] that imports registers. *)
Definition loads (w : World) (names : list string) : Prop :=
  forall name plugin,
    name ∈ names -> imported w name = Ok plugin ->
    exists d sp a, registers w name plugin d sp a.

Definition help_action_argument : Argument :=
  mkArgument [] "action" (Positional true) (Some VNone) None.

(** The parser of the [help] subcommand: [-h] and the positional
    [action] with [nargs=1]. *)
Definition help_parser : SubParser :=
  sp_add_argument (mkSubParser "help" None [help_argument])
                  help_action_argument.

(** [commands or modules]: the modules named on the command line,
    all modules when none is. *)
Definition considered (w : World) (argv : list string) : list string :=
  let modules := sc_modules (subcommands w) in
  let commands := filter (fun m => bool_decide (m ∈ argv)) modules in
  match commands with [] => modules | _ :: _ => commands end.

Definition parse_subcommands (w : World) (parser : ArgumentParser)
           (argv : list string) : M (ArgumentParser * Actions) :=
  let subparsers := mkSubparsers "subparser_name" [] ∅ in
  let* h := lift (of_result
                    (add_parser (py311 w) subparsers "help"
                       "Detailed help for actions using `help <action>`"
                       None)) in
  let subparsers :=
    set_parser h.1 "help" (sp_add_argument h.2 help_action_argument) in
  let* r := register w (considered w argv) subparsers ∅ in
  ret (mkParser (description parser) (arguments parser) (Some r.1), r.2).

Definition import_fails (w : World) (name : string) : bool :=
  match imported w name with Err _ => true | Ok _ => false end.

(** The messages of the imports that fail, in the order of [names]. *)
Definition import_errors (w : World) (names : list string) : list string :=
  omap (fun name => match imported w name with
                    | Err e => Some (exn_msg e)
                    | Ok _ => None
                    end) names.

(** The entries the loop adds to the listing of the subcommands:
    name and first line of the docstring of each module that imports,
    in the order of [names]. *)
Definition summaries (w : World) (names : list string)
  : list (string * string) :=
  omap (fun name => match imported w name with
                    | Ok p => (fun d => (name, first_line (lstrip d)))
                                <$> mod_doc p
                    | Err _ => None
                    end) names.

(** What [log.error(msg)] writes in state [s]. *)
Definition error_line (s : State) (msg : string) : event :=
  match root_handler s with
  | Some c =>
      if accepts_text (cfg_stream c)
      then LogLine (cfg_stream c) (cfg_format c) ERROR msg
      else HandlerError ERROR msg
  | None => LogLine StdErr "%(message)s" ERROR msg
  end.

(** The [-h] that [main] adds itself, without [help=]. *)
Definition main_help_argument : Argument :=
  mkArgument ["-h"; "--help"] "help" Help None None.

(** ** main

    [main] calls itself for [help <action>]. [main_body] is the body
    of [main] with that call as [self]; [main] ties the knot, [fuel]
    bounding the depth of the calls, and returns [None] when it is
    used up. *)
Definition main_body (self : list string -> M (option value))
           (w : World) (argv : list string) : M (option value) :=
  let parser := mkParser doc [] None in
  let parser := parse_args parser in
  let* r := parse_known_args (fs w) parser argv ∅ in
  let namespace := r.1 in
  let argv := r.2 in
  let* _ := setup_logging namespace in
  let* parser := parse_version w parser in
  let parser := add_argument parser main_help_argument in
  let* r := parse_subcommands w parser argv in
  let parser := r.1 in
  let actions := r.2 in
  let* namespace := argparse.parse_args (fs w) parser argv namespace in
  let action := namespace !! "subparser_name" in
  if decide (action = Some (VStr "help")) then
    match namespace !! "action" with
    | Some (VList (a :: _)) => self [a; "-h"]
    | Some (VList []) => raise (Exn IndexError "list index out of range")
    | Some _ => raise (Exn TypeError "object is not subscriptable")
    | None => raise (Exn AttributeError "action")
    end
  else
    let* namespace := sc_action (subcommands w) namespace in
    match action with
    | Some (VStr name) =>
        match actions !! name with
        | Some handler => let* v := handler namespace in ret (Some v)
        | None => raise (Exn KeyError name)
        end
    | _ => raise (Exn KeyError "None")
    end.

Fixpoint main (fuel : nat) (w : World) (argv : list string)
  : M (option value) :=
  match fuel with
  | O => ret None
  | S fuel' => main_body (main fuel' w) w argv
  end.

(** The last step of [main_body], from the parsed namespace on: the
    [help] branch, or the handler of the subcommand. *)
Definition dispatch (self : list string -> M (option value)) (w : World)
           (actions : Actions) (namespace : Namespace) : M (option value) :=
  let action := namespace !! "subparser_name" in
  if decide (action = Some (VStr "help")) then
    match namespace !! "action" with
    | Some (VList (a :: _)) => self [a; "-h"]
    | Some (VList []) => raise (Exn IndexError "list index out of range")
    | Some _ => raise (Exn TypeError "object is not subscriptable")
    | None => raise (Exn AttributeError "action")
    end
  else
    let* namespace := sc_action (subcommands w) namespace in
    match action with
    | Some (VStr name) =>
        match actions !! name with
        | Some handler => let* v := handler namespace in ret (Some v)
        | None => raise (Exn KeyError name)
        end
    | _ => raise (Exn KeyError "None")
    end.

(** The version [version] returns when the lookup of the installed
    package returns or raises DistributionNotFound. *)
Definition installed_version (w : World) : string :=
  match pkg_version w with
  | Ok pv => or_default (Some pv)
  | Err _ => "0.0.0"
  end.

(** The parser of the second phase of [main]: the global options,
    [-V] with the version [v], [-h], and the subcommands. *)
Definition full_parser (v : string) (sub : Subparsers) : ArgumentParser :=
  mkParser doc
           [log_argument; verbose_argument; quiet_argument;
            version_argument v; main_help_argument]
           (Some sub).

(** The subcommands and handlers that discovery assembles from the
    considered [names]: [help], and a parser and a handler for each
    name whose module registers. *)
Definition assembled (w : World) (names : list string)
           (sub : Subparsers) (acts : Actions) : Prop :=
  sub_dest sub = "subparser_name" /\
  choices_actions sub
  = ("help", "Detailed help for actions using `help <action>`")
      :: summaries w names /\
  name_parser_map sub !! "help" = Some help_parser /\
  acts !! "help" = None /\
  (forall k, k ∉ names ->
             acts !! k = None /\
             (k <> "help" -> name_parser_map sub !! k = None)) /\
  (forall k e, imported w k = Err e ->
               acts !! k = None /\
               (k <> "help" -> name_parser_map sub !! k = None)) /\
  (forall k p d sp a,
      k ∈ names -> imported w k = Ok p -> registers w k p d sp a ->
      acts !! k = Some a /\ name_parser_map sub !! k = Some sp).

End classifier.

(** * Concrete surroundings, for the examples below *)

Module Scenario.
Import utils argparse classifier.

(** Every open succeeds. *)
Definition plain_fs : FileSystem := {| fs_open := fun _ _ _ => None |}.

(** No file can be opened. *)
Definition read_only_fs : FileSystem :=
  {| fs_open := fun _ _ _ => Some (Exn OSError "Permission denied") |}.

(** A module with the docstring [d]; its [build_parser] adds nothing
    and its [action] returns [d]. *)
Definition plugin (d : string) : Plugin :=
  mkPlugin (Some d) (fun p => ret p) (Some (fun _ => ret (VStr d))).

(** Three subcommand modules; [broken] does not import. *)
Definition package : Subcommands :=
  mkSubcommands "classifier.subcommands" ["classify"; "broken"; "condense"]
                (fun p => ret p) (fun ns => ret ns)
                (bool_decide_unpack
                   (NoDup ["classify"; "broken"; "condense"]) I).

Definition import_ (imp : string) : result Plugin :=
  if String.eqb imp "classifier.subcommands.classify"
  then Ok (plugin "Classify sequences")
  else if String.eqb imp "classifier.subcommands.condense"
  then Ok (plugin "Condense hits")
  else Err (Exn ImportError "No module named pandas").

(** [git describe --tags] prints v0.1.2-38-g6a8e5e3 and a newline. *)
Definition describe_output : list Byte.byte :=
  list_byte_of_string "v0.1.2-38-g6a8e5e3" ++ [Byte.x0a].

(** A checkout with git; the package is not installed. *)
Definition checkout : World :=
  mkWorld plain_fs "/src/classifier" (fun _ => Ok describe_output)
          (Err (Exn DistributionNotFound "classifier")) package import_ true.

(** No git; the package is installed but a requirement of it is
    installed in a version it does not accept. *)
Definition conflict : World :=
  mkWorld plain_fs "/src/classifier"
          (fun _ => Err (Exn OSError "No such file or directory: 'git'"))
          (Err (Exn VersionConflict "pandas 0.16.0"))
          package import_ true.

(** [git describe] prints a bare v; the package is not installed. *)
Definition bare_tag : World :=
  mkWorld plain_fs "/src/classifier" (fun _ => Ok [Byte.x76])
          (Err (Exn DistributionNotFound "classifier")) package import_ true.

(** [git describe] prints a bare v; a requirement of the installed
    package is installed in a version it does not accept. *)
Definition bare_tag_conflict : World :=
  mkWorld plain_fs "/src/classifier" (fun _ => Ok [Byte.x76])
          (Err (Exn VersionConflict "pandas 0.16.0")) package import_ true.

(** The package is installed with an empty version; no git. *)
Definition empty_version : World :=
  mkWorld plain_fs "/src/classifier"
          (fun _ => Err (Exn OSError "No such file or directory: 'git'"))
          (Ok "") package import_ true.

(** Records keyed by their first component, a character. *)
Definition records : list (ascii * nat) :=
  [("b"%char, 1); ("a"%char, 2); ("b"%char, 3)].

(** The order of characters, by code. *)
Definition ascii_ltb (a b : ascii) : bool :=
  (nat_of_ascii a <? nat_of_ascii b)%nat.



(** The package is installed; no module of it imports. *)
Definition all_broken : World :=
  mkWorld plain_fs "/src/classifier"
          (fun _ => Err (Exn OSError "No such file or directory: 'git'"))
          (Ok "0.3.1") package
          (fun _ => Err (Exn ImportError "No module named pandas")) true.

(** The module [classify] has no docstring. *)
Definition undocumented : World :=
  mkWorld plain_fs "/src/classifier" (fun _ => Ok describe_output)
          (Ok "0.3.1") package
          (fun imp =>
             if String.eqb imp "classifier.subcommands.classify"
             then Ok (mkPlugin None (fun p => ret p)
                               (Some (fun _ => ret (VStr "classify"))))
             else import_ imp)
          true.

(** A package with a module named [help], on a Python where argparse
    refuses a name already taken ([strict], since 3.11) or not. *)
Definition help_package : Subcommands :=
  mkSubcommands "classifier.subcommands" ["help"; "classify"]
                (fun p => ret p) (fun ns => ret ns)
                (bool_decide_unpack (NoDup ["help"; "classify"]) I).

Definition shadowed (strict : bool) : World :=
  mkWorld plain_fs "/src/classifier" (fun _ => Ok describe_output)
          (Ok "0.3.1") help_package
          (fun imp =>
             if String.eqb imp "classifier.subcommands.help"
             then Ok (plugin "Help pages")
             else import_ imp)
          strict.

End Scenario.

(** * Properties *)

Import utils argparse classifier.

#[local] Arguments Ascii.eqb : simpl never.
#[local] Arguments String.eqb : simpl never.

(** ** The file opener *)

Lemma endswith_gz_not_bz2 (f : string) :
  endswith f ".gz" = true -> endswith f ".bz2" = false.
Proof.
  unfold endswith. simpl.
  destruct (rev (list_ascii_of_string f)) as [|a l]; simpl; [done|].
  intros [Ha _]%andb_true_iff. apply Ascii.eqb_eq in Ha. by subst a.
Qed.

Lemma endswith_not_dash (f suffix : string) :
  endswith "-" suffix = false -> endswith f suffix = true ->
  String.eqb f "-" = false.
Proof.
  intros Hdash Hend. destruct (String.eqb_spec f "-") as [->|]; [congruence|done].
Qed.

(** C3. The function [opener(mode)] returns gives back standard output
    and standard input unchanged; for the string [-] it gives standard
    input when [mode] contains [r] and standard output otherwise; a name
    ending in [.bz2] is opened with [bz2.open], one ending in [.gz] with
    [gzip.open], and any other name with the builtin [open]. *)
Theorem opener_cases (fs : FileSystem) (mode : string) :
  opener fs mode (Stream StdOut) = Returned StdOut /\
  opener fs mode (Stream StdIn) = Returned StdIn /\
  opener fs mode (Name "-")
    = Returned (if char_in "r" mode then StdIn else StdOut) /\
  (forall f, endswith f ".bz2" = true ->
             opener fs mode (Name f) = open_with fs Bz2 f mode) /\
  (forall f, endswith f ".gz" = true ->
             opener fs mode (Name f) = open_with fs Gzip f mode) /\
  (forall f, f <> "-" -> endswith f ".bz2" = false ->
             endswith f ".gz" = false ->
             opener fs mode (Name f) = open_with fs Plain f mode).
Proof.
  repeat split; try reflexivity.
  - intros f Hf. unfold opener, open_file.
    rewrite (endswith_not_dash f ".bz2") by done. by rewrite Hf.
  - intros f Hf. unfold opener, open_file.
    rewrite (endswith_not_dash f ".gz") by done.
    by rewrite (endswith_gz_not_bz2 f Hf), Hf.
  - intros f Hne Hb Hg. unfold opener, open_file.
    destruct (String.eqb_spec f "-"); [done|]. by rewrite Hb, Hg.
Qed.

Lemma opener_cases_witness :
  opener Scenario.plain_fs "a" (Name "run.log.bz2")
    = open_with Scenario.plain_fs Bz2 "run.log.bz2" "a" /\
  opener Scenario.plain_fs "a" (Name "run.log.gz")
    = open_with Scenario.plain_fs Gzip "run.log.gz" "a" /\
  opener Scenario.plain_fs "a" (Name "run.log")
    = open_with Scenario.plain_fs Plain "run.log" "a".
Proof.
  destruct (opener_cases Scenario.plain_fs "a") as (_ & _ & _ & Hb & Hg & Hp).
  split; [apply Hb; reflexivity|].
  split; [apply Hg; reflexivity|].
  apply Hp; [discriminate|reflexivity|reflexivity].
Defined.

(** ** The version resolver *)

Lemma logger_log_returns (lvl : level) (msg : string) (s : State) :
  exists s', logger_log lvl msg s = (Returned tt, s').
Proof.
  unfold logger_log.
  destruct (levelno (root_level s) <=? levelno lvl)%Z; [|by eexists].
  destruct (root_handler s) as [c|]; [|by eexists].
  unfold emit. destruct (accepts_text (cfg_stream c)); by eexists.
Qed.

Lemma logging_log_returns (lvl : level) (msg : string) (s : State) :
  exists s', logging_log lvl msg s = (Returned tt, s').
Proof.
  unfold logging_log, bind, basicConfig.
  destruct (root_handler s); apply logger_log_returns.
Qed.

(** Whatever the query does, the body of the [try] raises: the query
    fails, or its output is a bytes object. *)
Lemma describe_raises (w : World) (cmd : list string) (s : State) :
  exists e, describe w cmd s = (Raised e, s).
Proof.
  unfold describe, bind, lift.
  destruct (check_output w cmd) as [out|e]; simpl; by eexists.
Qed.

Lemma version_loop_none (w : World) (cmds : list (list string)) (s : State) :
  exists s', version_loop w cmds s = (Returned None, s').
Proof.
  revert s. induction cmds as [|cmd cmds IH]; intros s; simpl.
  - by eexists.
  - unfold bind at 1.
    destruct (logging_log_returns DEBUG (String.concat " " cmd) s) as [s1 ->].
    unfold bind at 1, try_except. unfold bind at 1.
    destruct (describe_raises w cmd s1) as [e ->].
    unfold bind at 1.
    destruct (logger_log_returns DEBUG (exn_msg e) s1) as [s2 ->].
    unfold ret at 1. apply IH.
Qed.

(** The queries never resolve a version: [version] is what the lookup
    of the installed package makes of it. *)
Lemma version_unfold (w : World) (s : State) :
  exists s1,
    version w s
    = (let* version :=
         match pkg_version w with
         | Ok v => ret (Some v)
         | Err e =>
             if bool_decide (exn_cls e = DistributionNotFound)
             then let* _ := logging_log WARNING (exn_msg e) in ret None
             else raise e
         end in
       ret (or_default version)) s1.
Proof.
  unfold version. unfold bind at 1.
  destruct (version_loop_none w (git_cmds w) s) as [s1 ->]. by exists s1.
Qed.

Lemma or_default_nonempty (o : option string) : or_default o <> "".
Proof.
  destruct o as [v|]; simpl; [|done].
  by destruct (String.eqb_spec v "").
Qed.

Lemma version_lookup_ok (w : World) (s : State) (v : string) :
  pkg_version w = Ok v -> (version w s).1 = Returned (or_default (Some v)).
Proof. intros Hv. destruct (version_unfold w s) as [s1 ->]. by rewrite Hv. Qed.

Lemma version_lookup_not_found (w : World) (s : State) (e : exn) :
  pkg_version w = Err e -> exn_cls e = DistributionNotFound ->
  (version w s).1 = Returned "0.0.0".
Proof.
  intros Hv He. destruct (version_unfold w s) as [s1 ->]. rewrite Hv.
  rewrite bool_decide_eq_true_2 by done.
  unfold bind at 1. unfold bind at 1.
  by destruct (logging_log_returns WARNING (exn_msg e) s1) as [s2 ->].
Qed.

Lemma version_lookup_other (w : World) (s : State) (e : exn) :
  pkg_version w = Err e -> exn_cls e <> DistributionNotFound ->
  (version w s).1 = Raised e.
Proof.
  intros Hv He. destruct (version_unfold w s) as [s1 ->]. rewrite Hv.
  by rewrite bool_decide_eq_false_2 by done.
Qed.

Lemma version_nonempty (w : World) (s : State) (v : string) :
  (version w s).1 = Returned v -> v <> "".
Proof.
  destruct (version_unfold w s) as [s1 ->].
  unfold bind at 1. destruct (pkg_version w) as [v0|e].
  - simpl. intros [= <-]. apply (or_default_nonempty (Some v0)).
  - case_bool_decide; [|done].
    unfold bind at 1.
    destruct (logging_log_returns WARNING (exn_msg e) s1) as [s2 ->].
    simpl. by intros [= <-].
Qed.

(** C4, as the code has it. The resolver returns a string, never the
    empty one, whenever the lookup of the installed package returns a
    version or raises DistributionNotFound, whatever the two queries
    do; any other exception of the lookup reaches the caller. *)
Theorem version_outcomes (w : World) (s : State) :
  (forall v, pkg_version w = Ok v ->
     (version w s).1 = Returned (or_default (Some v))) /\
  (forall e, pkg_version w = Err e -> exn_cls e = DistributionNotFound ->
     (version w s).1 = Returned "0.0.0") /\
  (forall e, pkg_version w = Err e -> exn_cls e <> DistributionNotFound ->
     (version w s).1 = Raised e) /\
  (forall v, (version w s).1 = Returned v -> v <> "").
Proof.
  repeat split.
  - apply version_lookup_ok.
  - apply version_lookup_not_found.
  - apply version_lookup_other.
  - apply version_nonempty.
Qed.

Lemma version_outcomes_witness :
  (version Scenario.checkout initial).1 = Returned "0.0.0" /\
  (version Scenario.all_broken initial).1 = Returned "0.3.1".
Proof.
  split.
  - destruct (version_outcomes Scenario.checkout initial) as (_ & H & _ & _).
    apply (H (Exn DistributionNotFound "classifier")); reflexivity.
  - destruct (version_outcomes Scenario.all_broken initial) as (H & _ & _ & _).
    apply (H "0.3.1"). reflexivity.
Defined.

(** C4 as stated fails: with a requirement installed in a conflicting
    version the lookup raises VersionConflict, and so does [version]. *)
Lemma version_raises_on_conflict :
  (version Scenario.conflict initial).1
    = Raised (Exn VersionConflict "pandas 0.16.0").
Proof. reflexivity. Qed.

(** C5. The output of a successful query is not parsed: [re.search]
    refuses the bytes object, the error is swallowed, and the version
    comes from the fallbacks, where the text of the output would
    resolve to 0.1.2.dev38. *)
Theorem describe_output_not_parsed :
  describe Scenario.checkout ["git"; "describe"; "--tags"] initial
    = (Raised (Exn TypeError "cannot use a string pattern on a bytes-like object"),
       initial) /\
  (version Scenario.checkout initial).1 = Returned "0.0.0" /\
  resolved <$> git_re_search (string_of_list_byte Scenario.describe_output)
    = Some "0.1.2.dev38".
Proof. repeat split; reflexivity. Qed.

(** C9, as the code has it. The final fallback replaces the empty
    string as it replaces [None]: the code after the loop returns 0.0.0
    when the loop hands it the empty string, and looks nothing up; and
    [version] returns 0.0.0 when the installed package has the empty
    version and when the package is not installed, whatever the two
    queries print, so in the situation of the claim too. *)
Theorem empty_resolution_gives_default (w : World) (s : State) :
  after_queries w (Some "") s = (Returned "0.0.0", s) /\
  (pkg_version w = Ok "" -> (version w s).1 = Returned "0.0.0") /\
  (forall e, pkg_version w = Err e -> exn_cls e = DistributionNotFound ->
             (version w s).1 = Returned "0.0.0").
Proof.
  split; [reflexivity|]. split.
  - intros Hpkg. by rewrite (version_lookup_ok w s "" Hpkg).
  - apply version_lookup_not_found.
Qed.

Lemma empty_resolution_gives_default_witness :
  (version Scenario.empty_version initial).1 = Returned "0.0.0" /\
  (check_output Scenario.bare_tag ["git"; "describe"; "--tags"]
   = Ok [Byte.x76] /\
   resolved <$> git_re_search (string_of_list_byte [Byte.x76]) = Some "" /\
   (version Scenario.bare_tag initial).1 = Returned "0.0.0").
Proof.
  split.
  - by apply (proj1 (proj2 (empty_resolution_gives_default
                              Scenario.empty_version initial))).
  - split; [reflexivity|]. split; [reflexivity|].
    apply (proj2 (proj2 (empty_resolution_gives_default
                           Scenario.bare_tag initial))
                 (Exn DistributionNotFound "classifier"));
      reflexivity.
Defined.

(** C9 as stated fails: the two queries print a bare v, whose text
    matches with an empty tag, and the lookup of the installed package
    supplies no version but raises VersionConflict; [version] raises
    it. *)
Lemma empty_resolution_raises_on_conflict :
  check_output Scenario.bare_tag_conflict ["git"; "describe"; "--tags"]
  = Ok [Byte.x76] /\
  resolved <$> git_re_search (string_of_list_byte [Byte.x76]) = Some "" /\
  (version Scenario.bare_tag_conflict initial).1
  = Raised (Exn VersionConflict "pandas 0.16.0").
Proof. repeat split; reflexivity. Qed.

(** ** The global options and the logging level *)

Lemma bind_returned {A B} (m : M A) (k : A -> M B) (s s' : State) (b : B) :
  bind m k s = (Returned b, s') ->
  exists a s1, m s = (Returned a, s1) /\ k a s1 = (Returned b, s').
Proof.
  unfold bind. destruct (m s) as [[a|e|c] s1]; [eauto|done|done].
Qed.

Lemma bind_step {A B} (m : M A) (k : A -> M B) (s s1 : State) (a : A) :
  m s = (Returned a, s1) -> bind m k s = k a s1.
Proof. unfold bind. by intros ->. Qed.

Lemma find_global (tok : string) :
  find_argument [log_argument; verbose_argument; quiet_argument] tok
  = if bool_decide (tok ∈ ["-l"; "--log"]) then Some log_argument
    else if bool_decide (tok ∈ ["-v"; "--verbose"]) then Some verbose_argument
    else if bool_decide (tok ∈ ["-q"; "--quiet"]) then Some quiet_argument
    else None.
Proof. reflexivity. Qed.

(** Membership in a list of literal tokens, case by case. *)
Ltac token_cases H :=
  repeat (apply elem_of_cons in H as [->|H]); [..|by apply elem_of_nil in H].

(** A literal token is not in a list of other literal tokens. *)
Ltac token_absurd H :=
  repeat (apply elem_of_cons in H as [H|H]; [discriminate H|]);
  by apply elem_of_nil in H.

Section GlobalOptions.
Variable fs : FileSystem.
Variable text : string.

(** The parse loop of the first phase. *)
Let scan := parse_loop fs text [log_argument; verbose_argument; quiet_argument]
                       [] None.

Lemma scan_verbose (tok : string) (rest : list string) (ns : Namespace) :
  tok ∈ ["-v"; "--verbose"] ->
  scan (tok :: rest) ns
  = (let* n := count_up ns "verbosity" in scan rest (<["verbosity" := n]> ns)).
Proof. intros Hv. token_cases Hv; reflexivity. Qed.

Lemma scan_quiet (tok : string) (rest : list string) (ns : Namespace) :
  tok ∈ ["-q"; "--quiet"] ->
  scan (tok :: rest) ns = scan rest (<["verbosity" := VInt 0]> ns).
Proof. intros Hq. token_cases Hq; reflexivity. Qed.

Lemma scan_log (tok : string) (rest : list string) (ns : Namespace) :
  tok ∈ ["-l"; "--log"] ->
  scan (tok :: rest) ns
  = match rest with
    | v :: rest' =>
        if optionlike v then usage_error "expected one argument"
        else let* x := convert fs (AsFile "a") v in
             scan rest' (<["log" := x]> ns)
    | [] => usage_error "expected one argument"
    end.
Proof. intros Hl. token_cases Hl; by destruct rest. Qed.

Lemma scan_other (tok : string) (rest : list string) (ns : Namespace) :
  tok ∉ ["-l"; "--log"] -> tok ∉ ["-v"; "--verbose"] -> tok ∉ ["-q"; "--quiet"] ->
  scan (tok :: rest) ns = (let* r := scan rest ns in ret (r.1, tok :: r.2)).
Proof.
  intros Hl Hv Hq. unfold scan. cbn [parse_loop]. rewrite find_global.
  rewrite !bool_decide_eq_false_2 by done. by destruct (optionlike tok).
Qed.

Lemma convert_file_returned (v : string) (x : value) (s s' : State) :
  convert fs (AsFile "a") v s = (Returned x, s') ->
  (exists f, x = VFile f) /\ s' = s.
Proof.
  unfold convert. destruct (opener fs "a" (Name v)) as [f|e|c].
  - intros [= <- <-]. eauto.
  - by destruct (bool_decide _).
  - done.
Qed.

Lemma count_up_well_formed (ns : Namespace) (s : State) :
  well_formed ns ->
  exists k, ns !! "verbosity" = Some (VInt k) /\
            count_up ns "verbosity" s = (Returned (VInt (k + 1)), s).
Proof. intros [_ [k Hk]]. exists k. unfold count_up. by rewrite Hk. Qed.

Lemma well_formed_verbosity (ns : Namespace) (k : Z) :
  well_formed ns -> well_formed (<["verbosity" := VInt k]> ns).
Proof.
  intros [[f Hf] _]. split.
  - exists f. by rewrite lookup_insert_ne.
  - exists k. by rewrite lookup_insert_eq.
Qed.

Lemma well_formed_log (ns : Namespace) (f : stream) :
  well_formed ns -> well_formed (<["log" := VFile f]> ns).
Proof.
  intros [_ [k Hk]]. split.
  - exists f. by rewrite lookup_insert_eq.
  - exists k. by rewrite lookup_insert_ne.
Qed.

(** A scan that returns leaves a well-formed namespace and writes
    nothing. *)
Lemma scan_well_formed (n : nat) :
  forall (argv : list string) (ns ns' : Namespace) (extras : list string)
         (s s' : State),
    length argv <= n -> well_formed ns ->
    scan argv ns s = (Returned (ns', extras), s') ->
    well_formed ns' /\ s' = s.
Proof.
  induction n as [|n IH]; intros [|tok rest] ns ns' extras s s' Hlen Hwf Hscan;
    simpl in Hlen; try lia.
  - by injection Hscan as <- _ <-.
  - by injection Hscan as <- _ <-.
  - destruct (decide (tok ∈ ["-l"; "--log"])) as [Hl|Hl].
    { rewrite (scan_log _ _ _ Hl) in Hscan.
      destruct rest as [|v rest']; [done|].
      destruct (optionlike v); [done|].
      apply bind_returned in Hscan as (x & s1 & Hx & Hscan).
      apply convert_file_returned in Hx as [[f ->] ->].
      apply IH in Hscan; [done|simpl in Hlen; lia|by apply well_formed_log]. }
    destruct (decide (tok ∈ ["-v"; "--verbose"])) as [Hv|Hv].
    { rewrite (scan_verbose _ _ _ Hv) in Hscan.
      destruct (count_up_well_formed ns s Hwf) as (k & _ & Hk).
      rewrite (bind_step _ _ _ _ _ Hk) in Hscan.
      apply IH in Hscan; [done|lia|by apply well_formed_verbosity]. }
    destruct (decide (tok ∈ ["-q"; "--quiet"])) as [Hq|Hq].
    { rewrite (scan_quiet _ _ _ Hq) in Hscan.
      apply IH in Hscan; [done|lia|by apply well_formed_verbosity]. }
    rewrite scan_other in Hscan by done.
    apply bind_returned in Hscan as (r & s1 & Hr & Hret).
    injection Hret as <- _ <-. destruct r as [ns1 extras1].
    apply IH in Hr; [done|lia|done].
Qed.

(** After a quiet flag, without a later verbose flag, the verbosity is
    0 at the end. *)
Lemma scan_stays_quiet (n : nat) :
  forall (argv : list string) (ns ns' : Namespace) (extras : list string)
         (s s' : State),
    length argv <= n ->
    (forall t, t ∈ argv -> t ∉ ["-v"; "--verbose"]) ->
    ns !! "verbosity" = Some (VInt 0) ->
    scan argv ns s = (Returned (ns', extras), s') ->
    ns' !! "verbosity" = Some (VInt 0).
Proof.
  induction n as [|n IH]; intros [|tok rest] ns ns' extras s s' Hlen Hnv Hq0 Hscan;
    simpl in Hlen; try lia.
  - by injection Hscan as <- _ _.
  - by injection Hscan as <- _ _.
  - destruct (decide (tok ∈ ["-l"; "--log"])) as [Hl|Hl].
    { rewrite (scan_log _ _ _ Hl) in Hscan.
      destruct rest as [|v rest']; [done|].
      destruct (optionlike v); [done|].
      apply bind_returned in Hscan as (x & s1 & Hx & Hscan).
      eapply IH in Hscan; [done|simpl in Hlen; lia| |].
      - intros t Ht. apply Hnv. rewrite !elem_of_cons. auto.
      - by rewrite lookup_insert_ne. }
    assert (Hv : tok ∉ ["-v"; "--verbose"])
      by (apply Hnv; rewrite elem_of_cons; auto).
    assert (Hrest : forall t, t ∈ rest -> t ∉ ["-v"; "--verbose"])
      by (intros t Ht; apply Hnv; rewrite elem_of_cons; auto).
    destruct (decide (tok ∈ ["-q"; "--quiet"])) as [Hq|Hq].
    { rewrite (scan_quiet _ _ _ Hq) in Hscan.
      eapply IH in Hscan; [done|lia|done|by rewrite lookup_insert_eq]. }
    rewrite scan_other in Hscan by done.
    apply bind_returned in Hscan as (r & s1 & Hr & Hret).
    injection Hret as <- _ _. destruct r as [ns1 extras1].
    eapply IH in Hr; [done|lia|done|done].
Qed.

Lemma scan_after_quiet (n : nat) :
  forall (pre post : list string) (q : string) (ns ns' : Namespace)
         (extras : list string) (s s' : State),
    length pre <= n -> q ∈ ["-q"; "--quiet"] ->
    (forall t, t ∈ post -> t ∉ ["-v"; "--verbose"]) ->
    well_formed ns ->
    scan (pre ++ q :: post) ns s = (Returned (ns', extras), s') ->
    ns' !! "verbosity" = Some (VInt 0).
Proof.
  induction n as [|n IH]; intros [|tok pre] post q ns ns' extras s s'
                                 Hlen Hq Hnv Hwf Hscan;
    simpl in Hlen; try lia.
  1,2: simpl in Hscan; rewrite (scan_quiet _ _ _ Hq) in Hscan;
       eapply scan_stays_quiet in Hscan;
       [done|done|done|by rewrite lookup_insert_eq].
  rewrite <- app_comm_cons in Hscan.
  destruct (decide (tok ∈ ["-l"; "--log"])) as [Hl|Hl].
  { rewrite (scan_log _ _ _ Hl) in Hscan.
    destruct pre as [|v pre'].
    - simpl in Hscan. by token_cases Hq.
    - rewrite <- app_comm_cons in Hscan.
      destruct (optionlike v); [done|].
      apply bind_returned in Hscan as (x & s1 & Hx & Hscan).
      apply convert_file_returned in Hx as [[f ->] ->].
      eapply IH in Hscan; [done|simpl in Hlen; lia|done|done|].
      by apply well_formed_log. }
  destruct (decide (tok ∈ ["-v"; "--verbose"])) as [Hv|Hv].
  { rewrite (scan_verbose _ _ _ Hv) in Hscan.
    destruct (count_up_well_formed ns s Hwf) as (k & _ & Hk).
    rewrite (bind_step _ _ _ _ _ Hk) in Hscan.
    eapply IH in Hscan; [done|lia|done|done|by apply well_formed_verbosity]. }
  destruct (decide (tok ∈ ["-q"; "--quiet"])) as [Hq'|Hq'].
  { rewrite (scan_quiet _ _ _ Hq') in Hscan.
    eapply IH in Hscan; [done|lia|done|done|by apply well_formed_verbosity]. }
  rewrite scan_other in Hscan by done.
  apply bind_returned in Hscan as (r & s1 & Hr & Hret).
  injection Hret as <- _ _. destruct r as [ns1 extras1].
  eapply IH in Hr; [done|lia|done|done|done].
Qed.

(** [-v] given [n] times counts up by [n]. *)
Lemma scan_repeat_verbose (n : nat) :
  forall (ns : Namespace) (k : Z) (s : State),
    ns !! "verbosity" = Some (VInt k) ->
    exists ns',
      scan (repeat "-v" n) ns s = (Returned (ns', []), s) /\
      ns' !! "verbosity" = Some (VInt (k + Z.of_nat n)) /\
      ns' !! "log" = ns !! "log".
Proof.
  induction n as [|n IH]; intros ns k s Hk.
  - exists ns. rewrite Z.add_0_r. by repeat split.
  - cbn [repeat]. rewrite scan_verbose by (rewrite elem_of_cons; auto).
    unfold bind, count_up. rewrite Hk. unfold ret at 1.
    destruct (IH (<["verbosity" := VInt (k + 1)]> ns) (k + 1)%Z s)
      as (ns' & -> & Hv & Hl); [by rewrite lookup_insert_eq|].
    exists ns'. split; [done|]. split.
    + rewrite Hv. do 2 f_equal. lia.
    + rewrite Hl. by rewrite lookup_insert_ne.
Qed.

End GlobalOptions.

Lemma prescan_unfold (fs : FileSystem) (argv : list string) :
  parse_known_args fs global_parser argv ∅
  = parse_loop fs (parser_help global_parser)
               [log_argument; verbose_argument; quiet_argument] [] None argv
               (<["verbosity" := VInt 0]> (<["log" := VFile StdOut]> ∅)).
Proof. reflexivity. Qed.

Lemma prescan_defaults_well_formed :
  well_formed (<["verbosity" := VInt 0]> (<["log" := VFile StdOut]> ∅)).
Proof. split; [by exists StdOut|by exists 0%Z]. Qed.

Lemma loglevel_from_three (v : Z) :
  (3 <= v)%Z -> default DEBUG (loglevel_table !! v) = DEBUG.
Proof.
  intros Hv. unfold loglevel_table.
  destruct (decide (v = 3%Z)) as [->|Hne]; [reflexivity|].
  rewrite !lookup_insert_ne by lia. by rewrite lookup_singleton_ne by lia.
Qed.

Lemma setup_logging_fresh (ns : Namespace) (f : stream) (v : Z) (s : State) :
  ns !! "verbosity" = Some (VInt v) -> ns !! "log" = Some (VFile f) ->
  root_handler s = None ->
  setup_logging ns s
  = (Returned tt,
     mkState (Some (Config f (if (1 <? v)%Z
                              then "%(levelname)s classifier %(lineno)s %(message)s"
                              else "classifier %(message)s")
                           (default DEBUG (loglevel_table !! v))))
             (written s)).
Proof.
  intros Hv Hl Hs. unfold setup_logging. rewrite Hv, Hl.
  unfold basicConfig. by rewrite Hs.
Qed.

(** C6. [setup_logging] configures the level ERROR for verbosity 0,
    WARNING for 1, INFO for 2 and DEBUG for 3 and more; and [-v] given
    [n] times makes the verbosity [n]. *)
Theorem verbosity_loglevel :
  (forall (ns : Namespace) (f : stream) (v : Z) (s : State),
      ns !! "verbosity" = Some (VInt v) -> ns !! "log" = Some (VFile f) ->
      root_handler s = None ->
      exists fmt lvl,
        setup_logging ns s
        = (Returned tt, mkState (Some (Config f fmt lvl)) (written s)) /\
        (v = 0%Z -> lvl = ERROR) /\
        (v = 1%Z -> lvl = WARNING) /\
        (v = 2%Z -> lvl = INFO) /\
        ((3 <= v)%Z -> lvl = DEBUG)) /\
  (forall (fs : FileSystem) (n : nat) (s : State),
      exists ns,
        parse_known_args fs global_parser (repeat "-v" n) ∅ s
        = (Returned (ns, []), s) /\
        ns !! "verbosity" = Some (VInt (Z.of_nat n)) /\
        ns !! "log" = Some (VFile StdOut)).
Proof.
  split.
  - intros ns f v s Hv Hl Hs. eexists _, _.
    split; [by apply setup_logging_fresh|].
    repeat split; try (by intros ->). apply loglevel_from_three.
  - intros fs n s. rewrite prescan_unfold.
    destruct (scan_repeat_verbose fs (parser_help global_parser) n
                (<["verbosity" := VInt 0]> (<["log" := VFile StdOut]> ∅)) 0 s)
      as (ns & Hscan & Hv & Hl); [done|].
    exists ns. by repeat split.
Qed.

Lemma verbosity_loglevel_witness :
  root_level
    (setup_logging (<["verbosity" := VInt 5]> (<["log" := VFile StdOut]> ∅))
                   initial).2
  = DEBUG.
Proof.
  destruct (proj1 verbosity_loglevel
                  (<["verbosity" := VInt 5]> (<["log" := VFile StdOut]> ∅))
                  StdOut 5%Z initial)
    as (fmt & lvl & Heq & _ & _ & _ & Hdebug);
    [vm_compute; reflexivity|vm_compute; reflexivity|reflexivity|].
  rewrite Heq. simpl. apply Hdebug. lia.
Defined.

(** Without [-l] the first phase always returns. *)
Lemma scan_returns (fs : FileSystem) (text : string) (argv : list string) :
  forall (ns : Namespace) (s : State),
    (forall t, t ∈ argv -> t ∉ ["-l"; "--log"]) -> well_formed ns ->
    exists ns' extras,
      parse_loop fs text [log_argument; verbose_argument; quiet_argument]
                 [] None argv ns s
      = (Returned (ns', extras), s).
Proof.
  induction argv as [|tok rest IH]; intros ns s Hnl Hwf.
  - by exists ns, [].
  - assert (Hl : tok ∉ ["-l"; "--log"]) by (apply Hnl; rewrite elem_of_cons; auto).
    assert (Hrest : forall t, t ∈ rest -> t ∉ ["-l"; "--log"])
      by (intros t Ht; apply Hnl; rewrite elem_of_cons; auto).
    destruct (decide (tok ∈ ["-v"; "--verbose"])) as [Hv|Hv].
    { rewrite (scan_verbose _ _ _ _ _ Hv).
      destruct (count_up_well_formed ns s Hwf) as (k & _ & Hk).
      rewrite (bind_step _ _ _ _ _ Hk).
      apply IH; [done|by apply well_formed_verbosity]. }
    destruct (decide (tok ∈ ["-q"; "--quiet"])) as [Hq|Hq].
    { rewrite (scan_quiet _ _ _ _ _ Hq).
      apply IH; [done|by apply well_formed_verbosity]. }
    rewrite scan_other by done.
    destruct (IH ns s Hrest Hwf) as (ns' & extras & Hscan).
    rewrite (bind_step _ _ _ _ _ Hscan). by eexists _, _.
Qed.

(** C7, as the code has it. On a command line of words and option
    strings written out in full, a quiet flag that no verbose flag
    follows leaves the verbosity 0 and the level ERROR, however many
    verbose flags come before it; and without [-l] the first phase does
    return. *)
Theorem quiet_last_forces_error
        (fs : FileSystem) (pre post : list string) (q : string) (s : State) :
  q ∈ ["-q"; "--quiet"] ->
  Forall (fun t => exact_token t = true) (pre ++ post)%list ->
  (forall t, t ∈ post -> t ∉ ["-v"; "--verbose"]) ->
  root_handler s = None ->
  (forall ns extras s',
      parse_known_args fs global_parser (pre ++ q :: post)%list ∅ s
      = (Returned (ns, extras), s') ->
      ns !! "verbosity" = Some (VInt 0) /\
      (setup_logging ns s').1 = Returned tt /\
      root_level (setup_logging ns s').2 = ERROR) /\
  ((forall t, t ∈ (pre ++ post)%list -> t ∉ ["-l"; "--log"]) ->
   exists ns extras,
     parse_known_args fs global_parser (pre ++ q :: post)%list ∅ s
     = (Returned (ns, extras), s)).
Proof.
  intros Hq _ Hnv Hs. split.
  - intros ns extras s' Hscan. rewrite prescan_unfold in Hscan.
    pose proof Hscan as Hwf.
    apply (scan_well_formed _ _ (length (pre ++ q :: post)%list)) in Hwf
      as [[[f Hf] _] ->]; [|done|apply prescan_defaults_well_formed].
    apply (scan_after_quiet _ _ (length pre)) in Hscan;
      [|done|done|done|apply prescan_defaults_well_formed].
    split; [done|]. by rewrite (setup_logging_fresh ns f 0 s).
  - intros Hnl. rewrite prescan_unfold. apply scan_returns.
    + intros t Ht. apply elem_of_app in Ht as [Ht|Ht].
      * apply Hnl. apply elem_of_app. auto.
      * apply elem_of_cons in Ht as [->|Ht].
        -- intros Hl. token_cases Hq; token_absurd Hl.
        -- apply Hnl. apply elem_of_app. auto.
    + apply prescan_defaults_well_formed.
Qed.

Lemma quiet_last_forces_error_witness :
  exists ns extras,
    parse_known_args Scenario.plain_fs global_parser
                     (["-v"; "-v"; "-v"] ++ "-q" :: ["classify"])%list ∅ initial
    = (Returned (ns, extras), initial) /\
    root_level (setup_logging ns initial).2 = ERROR.
Proof.
  destruct (quiet_last_forces_error Scenario.plain_fs ["-v"; "-v"; "-v"]
              ["classify"] "-q" initial) as [Hlevel Hreturns].
  - rewrite elem_of_cons. auto.
  - repeat constructor.
  - intros t Ht. apply list_elem_of_singleton in Ht as ->.
    intros Hv. token_absurd Hv.
  - reflexivity.
  - destruct Hreturns as (ns & extras & Hscan).
    + intros t Ht Hl. simpl in Ht. token_cases Ht; token_absurd Hl.
    + exists ns, extras. split; [done|]. by apply (Hlevel ns extras initial).
Defined.

(** C7 as stated fails: a verbose flag after the quiet flag counts
    again, [-q -v] configures WARNING. *)
Lemma quiet_then_verbose_is_warning :
  "-q" ∈ ["-q"; "-v"] /\
  (let* r := parse_known_args Scenario.plain_fs global_parser ["-q"; "-v"] ∅ in
   setup_logging r.1) initial
  = (Returned tt,
     mkState (Some (Config StdOut "classifier %(message)s" WARNING)) []).
Proof. split; [rewrite elem_of_cons; auto|reflexivity]. Qed.

(** ** Subcommand discovery *)

Lemma logger_error_writes (msg : string) (s : State) :
  logger_log ERROR msg s
  = (Returned tt, mkState (root_handler s) (written s ++ [error_line s msg])).
Proof.
  unfold logger_log, error_line, root_level, emit.
  destruct (root_handler s) as [[f fmt lvl]|] eqn:Hrh;
    cbn [cfg_stream cfg_level cfg_format].
  - destruct (accepts_text f); unfold write; rewrite Hrh;
      destruct lvl; reflexivity.
  - unfold write. by rewrite Hrh.
Qed.

Lemma error_line_same_handler (s s1 : State) :
  root_handler s1 = root_handler s -> error_line s1 = error_line s.
Proof. unfold error_line. by intros ->. Qed.

(** On a stream that takes text, [log.error] writes one line. *)
Lemma error_line_text (s : State) (c : config) (msg : string) :
  root_handler s = Some c -> accepts_text (cfg_stream c) = true ->
  error_line s msg = LogLine (cfg_stream c) (cfg_format c) ERROR msg.
Proof. unfold error_line. by intros -> ->. Qed.

Lemma registers_functional
      (w : World) (name : string) (p : Plugin) (d d' : string)
      (sp sp' : SubParser) (a a' : Namespace -> M value) :
  registers w name p d sp a -> registers w name p d' sp' a' ->
  d = d' /\ sp = sp' /\ a = a'.
Proof.
  intros (Hd & Ha & Hb) (Hd' & Ha' & Hb').
  rewrite Hd in Hd'. injection Hd' as <-.
  rewrite Ha in Ha'. injection Ha' as <-.
  specialize (Hb initial). rewrite Hb' in Hb. by injection Hb as <-.
Qed.

(** A module that registers, under a name that has no parser yet. *)
Lemma load_registers
      (w : World) (name : string) (p : Plugin) (d : string) (sp : SubParser)
      (a : Namespace -> M value) (sub : Subparsers) (s : State) :
  registers w name p d sp a ->
  name_parser_map sub !! name = None ->
  load w name p sub s
  = (Returned (mkSubparsers (sub_dest sub)
                            (choices_actions sub
                             ++ [(name, first_line (lstrip d))])
                            (<[name := sp]> (name_parser_map sub)), a), s).
Proof.
  intros (Hd & Ha & Hb) Hnone. unfold load, add_parser.
  rewrite Hd, Ha, Hnone.
  rewrite (bool_decide_eq_false_2 (is_Some None)) by (by intros [? ?]).
  rewrite andb_false_r. cbn [of_result].
  unfold bind, ret, lift. rewrite Hb. cbn [fst snd].
  unfold set_parser. cbn [sub_dest choices_actions name_parser_map].
  by rewrite insert_insert_eq.
Qed.

(** What [load] has done when it returns. *)
Lemma load_returned
      (w : World) (name : string) (p : Plugin) (sub sub1 : Subparsers)
      (a : Namespace -> M value) (s s1 : State) :
  load w name p sub s = (Returned (sub1, a), s1) ->
  exists d sp,
    mod_doc p = Some d /\ mod_action p = Some a /\
    sub_dest sub1 = sub_dest sub /\
    choices_actions sub1
    = (choices_actions sub ++ [(name, first_line (lstrip d))])%list /\
    name_parser_map sub1 = <[name := sp]> (name_parser_map sub).
Proof.
  unfold load, add_parser.
  destruct (mod_doc p) as [d|]; [|done].
  destruct (py311 w && bool_decide (is_Some (name_parser_map sub !! name)));
    [done|].
  cbn [of_result]. unfold bind, ret, lift.
  destruct (build_parsers w name p d s) as [[sp|e|c] s2]; [|done..].
  destruct (mod_action p) as [a0|]; [|done].
  intros [= <- <- <-]. exists d, sp.
  repeat split; try reflexivity.
  unfold set_parser. cbn [name_parser_map]. by rewrite insert_insert_eq.
Qed.

(** The loop over the considered names, when the modules that import
    register and none of them has a parser yet: one error line for
    each import that fails, a parser, a handler and an entry of the
    listing for each that succeeds, and the entries of all other names
    as they were. *)
Lemma register_spec (w : World) (names : list string) :
  forall (sub : Subparsers) (acts : Actions) (s : State),
    NoDup names ->
    (forall name p, name ∈ names -> imported w name = Ok p ->
                    name_parser_map sub !! name = None) ->
    loads w names ->
    exists sub' acts',
      register w names sub acts s
      = (Returned (sub', acts'),
         mkState (root_handler s)
                 (written s ++ map (error_line s) (import_errors w names))) /\
      sub_dest sub' = sub_dest sub /\
      choices_actions sub' = (choices_actions sub ++ summaries w names)%list /\
      (forall k, k ∉ names ->
                 acts' !! k = acts !! k /\
                 name_parser_map sub' !! k = name_parser_map sub !! k) /\
      (forall k e, imported w k = Err e ->
                   acts' !! k = acts !! k /\
                   name_parser_map sub' !! k = name_parser_map sub !! k) /\
      (forall k p d sp a,
          k ∈ names -> imported w k = Ok p -> registers w k p d sp a ->
          acts' !! k = Some a /\ name_parser_map sub' !! k = Some sp).
Proof.
  induction names as [|name names IH]; intros sub acts s Hnd Hfree Hloads.
  - exists sub, acts. simpl. rewrite !app_nil_r. destruct s as [rh wr].
    do 5 (split; [done|]).
    intros k p d sp a Hk. by apply elem_of_nil in Hk.
  - apply NoDup_cons in Hnd as [Hname Hnd].
    assert (Hloads' : loads w names).
    { intros k p Hk. apply Hloads. rewrite elem_of_cons. auto. }
    cbn [register import_errors summaries omap list_omap].
    fold (import_errors w names). fold (summaries w names).
    destruct (imported w name) as [p|e] eqn:Himp.
    + destruct (Hloads name p) as (d & sp & a & Hreg);
        [rewrite elem_of_cons; auto|done|].
      pose proof Hreg as (Hd & _ & _). rewrite Hd. cbn [fmap option_fmap option_map].
      rewrite (bind_step _ _ _ _ _
                 (load_registers w name p d sp a sub s Hreg
                    (Hfree name p ltac:(rewrite elem_of_cons; auto) Himp))).
      cbn [fst snd].
      match goal with
      | |- context [register w names ?sub1 ?acts1 s] =>
          destruct (IH sub1 acts1 s Hnd) as
            (sub' & acts' & Hrun & Hdest & Hchoices & Hout & Herr & Hin);
            [|done|]
      end.
      { intros k q Hk Hq. cbn [name_parser_map].
        rewrite lookup_insert_ne by (by intros ->).
        apply (Hfree k q); [rewrite elem_of_cons; auto|done]. }
      exists sub', acts'. split; [exact Hrun|]. split; [exact Hdest|].
      split.
      { rewrite Hchoices. cbn [choices_actions]. by rewrite <- app_assoc. }
      split; [|split].
      * intros k Hk. apply not_elem_of_cons in Hk as [Hne Hk].
        destruct (Hout k Hk) as [-> ->]. cbn [name_parser_map].
        by rewrite !lookup_insert_ne by done.
      * intros k e He. destruct (Herr k e He) as [-> ->].
        cbn [name_parser_map].
        rewrite !lookup_insert_ne by (intros ->; congruence). done.
      * intros k q d' sp' a' Hk Hq Hreg'.
        apply elem_of_cons in Hk as [->|Hk]; [|by apply (Hin k q d')].
        rewrite Himp in Hq. injection Hq as <-.
        destruct (registers_functional _ _ _ _ _ _ _ _ _ Hreg Hreg')
          as (_ & <- & <-).
        destruct (Hout name Hname) as [-> ->]. cbn [name_parser_map].
        by rewrite !lookup_insert_eq.
    + rewrite (bind_step _ _ _ _ _ (logger_error_writes (exn_msg e) s)).
      destruct (IH sub acts
                   (mkState (root_handler s)
                            (written s ++ [error_line s (exn_msg e)])) Hnd)
        as (sub' & acts' & Hrun & Hdest & Hchoices & Hout & Herr & Hin);
        [|done|].
      { intros k q Hk. apply Hfree. rewrite elem_of_cons. auto. }
      exists sub', acts'. split.
      { rewrite Hrun. cbn [root_handler written map].
        rewrite <- app_assoc. reflexivity. }
      split; [exact Hdest|]. split; [exact Hchoices|].
      split; [|split].
      * intros k Hk. apply not_elem_of_cons in Hk as [_ Hk]. by apply Hout.
      * exact Herr.
      * intros k q d' sp' a' Hk Hq Hreg'.
        apply elem_of_cons in Hk as [->|Hk]; [congruence|].
        by apply (Hin k q d').
Qed.

Lemma considered_subset (w : World) (argv : list string) (k : string) :
  k ∈ considered w argv -> k ∈ sc_modules (subcommands w).
Proof.
  unfold considered.
  destruct (filter _ _) as [|m l] eqn:Hf; [done|].
  rewrite <- Hf. by intros [_ Hk]%list_elem_of_filter.
Qed.

Lemma considered_NoDup (w : World) (argv : list string) :
  NoDup (considered w argv).
Proof.
  unfold considered.
  destruct (filter _ _) as [|m l] eqn:Hf; [apply sc_unique|].
  rewrite <- Hf. apply NoDup_filter, sc_unique.
Qed.

(** The grammar before the loop: the [help] subcommand alone. *)
Lemma help_registered_first (w : World) :
  of_result
    (add_parser (py311 w) (mkSubparsers "subparser_name" [] ∅) "help"
                "Detailed help for actions using `help <action>`" None)
  = Returned
      (mkSubparsers
         "subparser_name"
         [("help", "Detailed help for actions using `help <action>`")]
         {[ "help" := mkSubParser "help" None [help_argument] ]},
       mkSubParser "help" None [help_argument]).
Proof. unfold add_parser. by destruct (py311 w). Qed.

(** [parse_subcommands], when the considered modules that import
    register and none of them is named [help]. *)
Lemma parse_subcommands_spec
      (w : World) (parser : ArgumentParser) (argv : list string) (s : State) :
  (forall p, "help" ∈ considered w argv -> imported w "help" = Ok p -> False) ->
  loads w (considered w argv) ->
  exists sub acts,
    parse_subcommands w parser argv s
    = (Returned (mkParser (description parser) (arguments parser) (Some sub),
                 acts),
       mkState (root_handler s)
               (written s
                ++ map (error_line s) (import_errors w (considered w argv)))) /\
    assembled w (considered w argv) sub acts.
Proof.
  intros Hhelp Hloads. unfold parse_subcommands, assembled.
  unfold bind at 1, lift at 1. rewrite help_registered_first.
  cbn [fst snd]. unfold set_parser at 1.
  cbn [sub_dest choices_actions name_parser_map].
  change (sp_add_argument _ help_action_argument) with help_parser.
  match goal with
  | |- context [register w _ ?sub0 ?acts0] =>
      destruct (register_spec w (considered w argv) sub0 acts0 s
                              (considered_NoDup w argv))
        as (sub & acts & Hreg & Hdest & Hchoices & Hout & Herr & Hin);
        [|done|]
  end.
  { intros name p Hname Himp. cbn [name_parser_map].
    assert (Hne : "help" <> name) by (intros <-; by apply (Hhelp p)).
    by rewrite lookup_insert_ne, lookup_singleton_ne. }
  assert (Hbase : forall k,
             (<["help" := help_parser]>
                ({[ "help" := mkSubParser "help" None [help_argument] ]}
                 : gmap string SubParser)) !! k
             = if decide (k = "help") then Some help_parser else None).
  { intros k. destruct (decide (k = "help")) as [->|Hne].
    - by rewrite lookup_insert_eq.
    - by rewrite lookup_insert_ne, lookup_singleton_ne by done. }
  assert (Hhelp_entry : acts !! "help" = None /\
                        name_parser_map sub !! "help" = Some help_parser).
  { destruct (decide ("help" ∈ considered w argv)) as [Hc|Hc].
    - destruct (imported w "help") as [p|e] eqn:Himp;
        [by destruct (Hhelp p)|].
      destruct (Herr "help" e Himp) as [-> ->].
      cbn [name_parser_map]. by rewrite Hbase, lookup_empty.
    - destruct (Hout "help" Hc) as [-> ->].
      cbn [name_parser_map]. by rewrite Hbase, lookup_empty. }
  exists sub, acts. rewrite (bind_step _ _ _ _ _ Hreg).
  split; [reflexivity|]. split; [exact Hdest|]. split; [exact Hchoices|].
  split; [apply Hhelp_entry|]. split; [apply Hhelp_entry|].
  split; [|split; [|exact Hin]].
  - intros k Hk. destruct (Hout k Hk) as [-> ->]. cbn [name_parser_map].
    rewrite Hbase, lookup_empty. split; [done|].
    intros Hne. by rewrite decide_False.
  - intros k e He. destruct (Herr k e He) as [-> ->]. cbn [name_parser_map].
    rewrite Hbase, lookup_empty. split; [done|].
    intros Hne. by rewrite decide_False.
Qed.

Lemma import_errors_length (w : World) (names : list string) :
  length (import_errors w names)
  = length (filter (fun name => import_fails w name = true) names).
Proof.
  induction names as [|name names IH]; [done|].
  cbn [import_errors omap list_omap]. fold (import_errors w names).
  destruct (imported w name) as [p|e] eqn:Himp.
  - rewrite filter_cons_False; [done|]. unfold import_fails. by rewrite Himp.
  - rewrite filter_cons_True; [|unfold import_fails; by rewrite Himp].
    simpl. by rewrite IH.
Qed.

(** The modules of the examples register. *)
Lemma plugin_registers (w : World) (name d : string) :
  sc_build_parser (subcommands w) = (fun p => ret p) ->
  registers w name (Scenario.plugin d) d
            (mkSubParser name (Some d) [help_argument])
            (fun _ => ret (VStr d)).
Proof.
  intros Hbuild. split; [done|]. split; [done|].
  intros s. unfold build_parsers. by rewrite Hbuild.
Qed.

Lemma import_plugin (imp : string) (p : Plugin) :
  Scenario.import_ imp = Ok p -> exists d, p = Scenario.plugin d.
Proof.
  unfold Scenario.import_.
  destruct (String.eqb imp _); [intros [= <-]; by eexists|].
  destruct (String.eqb imp _); [intros [= <-]; by eexists|done].
Qed.

Lemma checkout_loads (names : list string) : loads Scenario.checkout names.
Proof.
  intros name p _ Himp. apply import_plugin in Himp as [d ->].
  eexists _, _, _. by apply plugin_registers.
Qed.

(** C8, as the code has it. When the considered modules that import
    register (docstring, [build_parser], [action]) and none of them is
    named [help], discovery returns: each considered module whose
    import raises costs exactly one call of [log.error], which is one
    line on a log stream that takes text, and gets no handler and no
    parser; each considered module that imports gets its handler and
    its parser, whatever the other imports do. *)
Theorem broken_plugins_are_skipped
        (w : World) (parser : ArgumentParser) (argv : list string) (s : State) :
  (forall p, "help" ∈ considered w argv -> imported w "help" = Ok p -> False) ->
  loads w (considered w argv) ->
  exists sub acts,
    parse_subcommands w parser argv s
    = (Returned (mkParser (description parser) (arguments parser) (Some sub),
                 acts),
       mkState (root_handler s)
               (written s
                ++ map (error_line s) (import_errors w (considered w argv)))) /\
    length (import_errors w (considered w argv))
    = length (filter (fun name => import_fails w name = true)
                     (considered w argv)) /\
    (forall c msg,
        root_handler s = Some c -> accepts_text (cfg_stream c) = true ->
        error_line s msg = LogLine (cfg_stream c) (cfg_format c) ERROR msg) /\
    (forall name e,
        name ∈ considered w argv -> imported w name = Err e ->
        acts !! name = None /\
        (name <> "help" -> name_parser_map sub !! name = None)) /\
    (forall name p d sp a,
        name ∈ considered w argv -> imported w name = Ok p ->
        registers w name p d sp a ->
        acts !! name = Some a /\ name_parser_map sub !! name = Some sp).
Proof.
  intros Hhelp Hloads.
  destruct (parse_subcommands_spec w parser argv s Hhelp Hloads)
    as (sub & acts & Hrun & _ & _ & _ & _ & _ & Herr & Hin).
  exists sub, acts. split; [exact Hrun|].
  split; [apply import_errors_length|].
  split; [intros c msg; apply error_line_text|].
  split; [|exact Hin].
  intros name e _ Himp. by apply (Herr name e).
Qed.

Lemma broken_plugins_are_skipped_witness :
  exists sub acts,
    parse_subcommands Scenario.checkout global_parser [] initial
    = (Returned (mkParser (description global_parser)
                          (arguments global_parser) (Some sub), acts),
       mkState None [LogLine StdErr "%(message)s" ERROR "No module named pandas"]) /\
    acts !! "broken" = None /\
    name_parser_map sub !! "broken" = None /\
    is_Some (acts !! "classify") /\
    is_Some (acts !! "condense").
Proof.
  destruct (broken_plugins_are_skipped Scenario.checkout global_parser []
                                       initial)
    as (sub & acts & Hrun & _ & _ & Hbroken & Hgood).
  - intros p _ Himp. discriminate Himp.
  - apply checkout_loads.
  - exists sub, acts. split; [exact Hrun|].
    assert (Hin : forall name, name ∈ ["classify"; "broken"; "condense"] ->
                               name ∈ considered Scenario.checkout [])
      by (intros name Hname; exact Hname).
    destruct (Hbroken "broken" (Exn ImportError "No module named pandas"))
      as [Hacts Hmap]; [apply Hin; rewrite !elem_of_cons; auto|reflexivity|].
    split; [exact Hacts|]. split; [by apply Hmap|].
    split.
    + destruct (Hgood "classify" (Scenario.plugin "Classify sequences")
                      "Classify sequences" _ _
                      ltac:(apply Hin; rewrite !elem_of_cons; auto) eq_refl
                      (plugin_registers Scenario.checkout "classify" _ eq_refl))
        as [-> _]. by eexists.
    + destruct (Hgood "condense" (Scenario.plugin "Condense hits")
                      "Condense hits" _ _
                      ltac:(apply Hin; rewrite !elem_of_cons; auto) eq_refl
                      (plugin_registers Scenario.checkout "condense" _ eq_refl))
        as [-> _]. by eexists.
Defined.

(** C8 as stated fails: the lines after the import are outside the
    [try]. The module [classify] imports but has no docstring: the
    loop raises at its first step, and [condense], which imports and
    registers, gets neither parser nor handler. *)
Lemma discovery_aborts_without_docstring :
  imported Scenario.undocumented "condense" = Ok (Scenario.plugin "Condense hits") /\
  parse_subcommands Scenario.undocumented global_parser [] initial
  = (Raised (Exn AttributeError "'NoneType' object has no attribute 'lstrip'"),
     initial).
Proof. split; reflexivity. Qed.

(** What the loop has done when it returns: the parsers it was given
    are kept, but for those under the name of a module that was
    loaded, and the listing has grown at its end. *)
Lemma register_returned (w : World) (names : list string) :
  forall (sub : Subparsers) (acts : Actions) (s : State)
         (sub' : Subparsers) (acts' : Actions) (s' : State),
    register w names sub acts s = (Returned (sub', acts'), s') ->
    sub_dest sub' = sub_dest sub /\
    (forall k, is_Some (name_parser_map sub !! k) ->
               is_Some (name_parser_map sub' !! k)) /\
    (forall k, (forall p, k ∈ names -> imported w k = Ok p -> False) ->
               name_parser_map sub' !! k = name_parser_map sub !! k) /\
    (exists more, choices_actions sub' = (choices_actions sub ++ more)%list).
Proof.
  induction names as [|name names IH]; intros sub acts s sub' acts' s' Hreg.
  - injection Hreg as <- _ _. repeat split; [done|by exists []; rewrite app_nil_r].
  - cbn [register] in Hreg.
    destruct (imported w name) as [p|e] eqn:Himp.
    + apply bind_returned in Hreg as ([sub1 a] & s1 & Hload & Hreg).
      apply load_returned in Hload as (d & sp & _ & _ & Hdest & Hchoices & Hmap).
      apply IH in Hreg as (Hdest' & Hkeep & Hsame & more & Hmore).
      cbn [fst] in *. split; [congruence|]. split; [|split].
      * intros k Hk. apply Hkeep. rewrite Hmap.
        destruct (decide (name = k)) as [->|Hne].
        -- rewrite lookup_insert_eq. by eexists.
        -- by rewrite lookup_insert_ne.
      * intros k Hk. rewrite Hsame.
        -- rewrite Hmap. rewrite lookup_insert_ne; [done|].
           intros ->. apply (Hk p); [rewrite elem_of_cons; auto|done].
        -- intros q Hin. apply Hk. rewrite elem_of_cons. auto.
      * exists ((name, first_line (lstrip d)) :: more).
        rewrite Hmore, Hchoices. by rewrite <- app_assoc.
    + rewrite (bind_step _ _ _ _ _ (logger_error_writes (exn_msg e) s)) in Hreg.
      apply IH in Hreg as (Hdest' & Hkeep & Hsame & Hmore).
      split; [done|]. split; [done|]. split; [|done].
      intros k Hk. apply Hsame. intros q Hin. apply Hk.
      rewrite elem_of_cons. auto.
Qed.

(** Since Python 3.11 a module under a name that has a parser already
    cannot be loaded. *)
Lemma load_conflict
      (w : World) (name : string) (p : Plugin) (sub : Subparsers) (s : State) :
  py311 w = true -> is_Some (name_parser_map sub !! name) ->
  forall r s', load w name p sub s <> (Returned r, s').
Proof.
  intros Hstrict Hk r s'. unfold load, add_parser.
  rewrite Hstrict, bool_decide_eq_true_2 by done.
  by destruct (mod_doc p).
Qed.

Lemma register_conflict (w : World) (names : list string) :
  forall (sub : Subparsers) (acts : Actions) (s : State)
         (name : string) (p : Plugin),
    py311 w = true -> name ∈ names -> imported w name = Ok p ->
    is_Some (name_parser_map sub !! name) ->
    forall r s', register w names sub acts s <> (Returned r, s').
Proof.
  induction names as [|n names IH];
    intros sub acts s name p Hstrict Hin Himp Hk r s' Hreg;
    [by apply elem_of_nil in Hin|].
  cbn [register] in Hreg. destruct (decide (n = name)) as [->|Hne].
  - rewrite Himp in Hreg.
    apply bind_returned in Hreg as (x & s1 & Hload & _).
    by apply load_conflict in Hload.
  - apply elem_of_cons in Hin as [->|Hin]; [done|].
    destruct (imported w n) as [q|e] eqn:Hq.
    + apply bind_returned in Hreg as ([sub1 a] & s1 & Hload & Hreg).
      apply load_returned in Hload as (d & sp & _ & _ & _ & _ & Hmap).
      apply (IH _ _ _ name p) in Hreg; [done..|].
      cbn [fst]. by rewrite Hmap, lookup_insert_ne.
    + rewrite (bind_step _ _ _ _ _ (logger_error_writes (exn_msg e) s)) in Hreg.
      by apply (IH _ _ _ name p) in Hreg.
Qed.

(** C10, as the code has it. The [help] parser, with its one required
    positional [action], is registered before the loop. Whenever
    [parse_subcommands] returns a grammar, the grammar has a [help]
    subcommand, first in its listing, and it is that parser unless a
    considered module named [help] was loaded over it; argparse allows
    that before Python 3.11 only, and since then [parse_subcommands]
    raises in that case, so that a grammar it returns always has that
    parser. [parse_subcommands] does return when the considered
    modules that import register and none is named [help], and when
    every considered module fails to import: then with [help] as the
    only subcommand and no handler. *)
Theorem help_always_registered
        (w : World) (parser : ArgumentParser) (argv : list string) (s : State) :
  (forall p acts s',
      parse_subcommands w parser argv s = (Returned (p, acts), s') ->
      exists sub,
        subparsers p = Some sub /\
        sub_dest sub = "subparser_name" /\
        is_Some (name_parser_map sub !! "help") /\
        head (choices_actions sub)
        = Some ("help", "Detailed help for actions using `help <action>`") /\
        ((py311 w = true \/
          (forall pl, "help" ∈ considered w argv ->
                      imported w "help" = Ok pl -> False)) ->
         name_parser_map sub !! "help" = Some help_parser)) /\
  ((forall pl, "help" ∈ considered w argv ->
               imported w "help" = Ok pl -> False) ->
   loads w (considered w argv) ->
   exists sub acts s',
     parse_subcommands w parser argv s
     = (Returned (mkParser (description parser) (arguments parser) (Some sub),
                  acts), s') /\
     name_parser_map sub !! "help" = Some help_parser) /\
  ((forall name, name ∈ considered w argv -> exists e, imported w name = Err e) ->
   exists sub acts s',
     parse_subcommands w parser argv s
     = (Returned (mkParser (description parser) (arguments parser) (Some sub),
                  acts), s') /\
     name_parser_map sub = {[ "help" := help_parser ]} /\ acts = ∅) /\
  filter is_positional (sp_arguments help_parser) = [help_action_argument] /\
  (py311 w = true ->
   forall pl, "help" ∈ considered w argv -> imported w "help" = Ok pl ->
              forall r s', parse_subcommands w parser argv s <> (Returned r, s')).
Proof.
  assert (Hrefused :
            py311 w = true ->
            forall pl, "help" ∈ considered w argv -> imported w "help" = Ok pl ->
                       forall r s',
                         parse_subcommands w parser argv s <> (Returned r, s')).
  { intros Hstrict pl Hin Himp r s' Hrun. unfold parse_subcommands in Hrun.
    unfold bind at 1, lift at 1 in Hrun. rewrite help_registered_first in Hrun.
    cbn [fst snd] in Hrun.
    apply bind_returned in Hrun as (x & s1 & Hreg & _).
    apply (register_conflict w _ _ _ _ "help" pl) in Hreg; [done..|].
    unfold set_parser. cbn [name_parser_map].
    rewrite lookup_insert_eq. by eexists. }
  split; [|split; [|split; [|split; [reflexivity|exact Hrefused]]]].
  - intros p acts s' Hrun. pose proof Hrun as Hrun0.
    unfold parse_subcommands in Hrun.
    unfold bind at 1, lift at 1 in Hrun. rewrite help_registered_first in Hrun.
    cbn [fst snd] in Hrun. unfold set_parser at 1 in Hrun.
    cbn [sub_dest choices_actions name_parser_map] in Hrun.
    change (sp_add_argument _ help_action_argument) with help_parser in Hrun.
    apply bind_returned in Hrun as ([sub acts0] & s1 & Hreg & Hret).
    injection Hret as <- _ _.
    apply register_returned in Hreg as (Hdest & Hkeep & Hsame & more & Hmore).
    exists sub. split; [done|]. split; [exact Hdest|].
    cbn [name_parser_map choices_actions] in *. split; [|split].
    + apply Hkeep. rewrite lookup_insert_eq. by eexists.
    + by rewrite Hmore.
    + intros Hhelp.
      assert (Hnone : forall pl, "help" ∈ considered w argv ->
                                 imported w "help" = Ok pl -> False).
      { destruct Hhelp as [Hstrict|Hnone]; [|exact Hnone].
        intros pl Hin Himp. exact (Hrefused Hstrict pl Hin Himp _ _ Hrun0). }
      rewrite (Hsame "help" Hnone). by rewrite lookup_insert_eq.
  - intros Hnone Hloads.
    destruct (parse_subcommands_spec w parser argv s Hnone Hloads)
      as (sub & acts & Hrun & _ & _ & Hhelp & _).
    exists sub, acts. eexists. split; [exact Hrun|exact Hhelp].
  - intros Hfail.
    destruct (parse_subcommands_spec w parser argv s)
      as (sub & acts & Hrun & _ & _ & Hhelp & Hnohelp & Hout & Herr & _).
    { intros p Hin Himp. apply Hfail in Hin as [e He]. congruence. }
    { intros name p Hin Himp. apply Hfail in Hin as [e He]. congruence. }
    exists sub, acts. eexists. split; [exact Hrun|].
    split; apply map_eq; intros k.
    + destruct (decide (k = "help")) as [->|Hne].
      * by rewrite Hhelp, lookup_singleton_eq.
      * rewrite lookup_singleton_ne by done.
        destruct (decide (k ∈ considered w argv)) as [Hin|Hin].
        -- apply Hfail in Hin as [e He]. by apply (Herr k e He).
        -- by apply (Hout k Hin).
    + rewrite lookup_empty.
      destruct (decide (k ∈ considered w argv)) as [Hin|Hin].
      * apply Hfail in Hin as [e He]. by apply (Herr k e He).
      * by apply (Hout k Hin).
Qed.

Lemma help_always_registered_witness :
  (exists sub acts s',
      parse_subcommands Scenario.all_broken global_parser ["classify"] initial
      = (Returned (mkParser (description global_parser)
                            (arguments global_parser) (Some sub), acts), s') /\
      name_parser_map sub = {[ "help" := help_parser ]} /\ acts = ∅) /\
  (exists sub acts s',
      parse_subcommands Scenario.checkout global_parser [] initial
      = (Returned (mkParser (description global_parser)
                            (arguments global_parser) (Some sub), acts), s') /\
      name_parser_map sub !! "help" = Some help_parser).
Proof.
  split.
  - destruct (help_always_registered Scenario.all_broken global_parser
                                     ["classify"] initial)
      as (_ & _ & Honly & _).
    apply Honly. intros name _. by eexists.
  - destruct (help_always_registered Scenario.checkout global_parser
                                     [] initial)
      as (_ & Hreturns & _).
    apply Hreturns; [|apply checkout_loads].
    intros pl Hin _. simpl in Hin. token_absurd Hin.
Defined.

(** C10 as stated fails when a module of the package is itself named
    [help]: before Python 3.11 the parser of the module replaces the
    [help] parser in the grammar, and it has no positional; since
    Python 3.11 argparse refuses the name and no grammar is
    assembled. *)
Lemma help_parser_shadowed :
  (exists sub acts,
      parse_subcommands (Scenario.shadowed false) global_parser [] initial
      = (Returned (mkParser (description global_parser)
                            (arguments global_parser) (Some sub), acts),
         initial) /\
      name_parser_map sub !! "help"
      = Some (mkSubParser "help" (Some "Help pages") [help_argument]) /\
      filter is_positional [help_argument] = []) /\
  parse_subcommands (Scenario.shadowed true) global_parser [] initial
  = (Raised (Exn ArgumentError "conflicting subparser: help"), initial).
Proof.
  split; [|reflexivity].
  eexists _, _. split; [reflexivity|]. split; reflexivity.
Qed.

(** ** help <action> *)

Lemma logging_quiet (lvl : level) (msg : string) (s : State) (c : config) :
  root_handler s = Some c -> cfg_level c = ERROR -> lvl <> ERROR ->
  logging_log lvl msg s = (Returned tt, s) /\
  logger_log lvl msg s = (Returned tt, s).
Proof.
  intros Hc He Hlvl.
  assert (Hlog : logger_log lvl msg s = (Returned tt, s)).
  { unfold logger_log, root_level. rewrite Hc, He. by destruct lvl. }
  split; [|exact Hlog].
  unfold logging_log, bind, basicConfig. by rewrite Hc.
Qed.

Lemma version_loop_quiet (w : World) (cmds : list (list string))
      (s : State) (c : config) :
  root_handler s = Some c -> cfg_level c = ERROR ->
  version_loop w cmds s = (Returned None, s).
Proof.
  intros Hc He. induction cmds as [|cmd cmds IH]; [done|].
  cbn [version_loop].
  destruct (logging_quiet DEBUG (String.concat " " cmd) s c Hc He) as [Hl _];
    [done|].
  rewrite (bind_step _ _ _ _ _ Hl).
  unfold bind at 1, try_except. unfold bind at 1.
  destruct (describe_raises w cmd s) as [e ->].
  unfold bind at 1.
  destruct (logging_quiet DEBUG (exn_msg e) s c Hc He) as [_ ->]; [done|].
  exact IH.
Qed.

(** With the level ERROR the resolver writes nothing. *)
Lemma version_quiet (w : World) (s : State) (c : config) :
  root_handler s = Some c -> cfg_level c = ERROR ->
  version w s
  = (match pkg_version w with
     | Ok v => Returned (or_default (Some v))
     | Err e => if bool_decide (exn_cls e = DistributionNotFound)
                then Returned "0.0.0" else Raised e
     end, s).
Proof.
  intros Hc He. unfold version.
  rewrite (bind_step _ _ _ _ _ (version_loop_quiet w _ s c Hc He)).
  unfold after_queries.
  destruct (pkg_version w) as [v|e]; [done|].
  case_bool_decide; [|done].
  unfold bind at 1. unfold bind at 1.
  by destruct (logging_quiet WARNING (exn_msg e) s c Hc He) as [-> _].
Qed.

Lemma version_quiet_installed (w : World) (s : State) (c : config) :
  root_handler s = Some c -> cfg_level c = ERROR ->
  (forall e, pkg_version w = Err e -> exn_cls e = DistributionNotFound) ->
  version w s = (Returned (installed_version w), s).
Proof.
  intros Hc He Hpkg. rewrite (version_quiet w s c Hc He).
  unfold installed_version. destruct (pkg_version w) as [v|e]; [done|].
  by rewrite bool_decide_eq_true_2 by (by apply Hpkg).
Qed.

Lemma option_strings_dash (tok : string) :
  tok ∈ ["-l"; "--log"; "-v"; "--verbose"; "-q"; "--quiet";
         "-V"; "--version"; "-h"; "--help"] ->
  startswith tok "-" = true.
Proof. intros Hin. token_cases Hin; reflexivity. Qed.

(** A word is none of the option strings. *)
Ltac word_not_option Hword :=
  let Hin := fresh "Hin" in
  intros Hin; apply not_true_iff_false in Hword; apply Hword;
  apply option_strings_dash; rewrite !elem_of_cons, elem_of_nil in Hin;
  rewrite !elem_of_cons; tauto.

Lemma prescan_words (fs : FileSystem) (a b : string) (s : State) :
  startswith a "-" = false -> (startswith b "-" = false \/ b = "-h") ->
  parse_known_args fs global_parser [a; b] ∅ s
  = (Returned (<["verbosity" := VInt 0]> (<["log" := VFile StdOut]> ∅), [a; b]),
     s).
Proof.
  intros Ha Hb. rewrite prescan_unfold.
  rewrite scan_other; [| word_not_option Ha..].
  rewrite scan_other.
  - reflexivity.
  - destruct Hb as [Hb| ->]; [word_not_option Hb|intros Hin; token_absurd Hin].
  - destruct Hb as [Hb| ->]; [word_not_option Hb|intros Hin; token_absurd Hin].
  - destruct Hb as [Hb| ->]; [word_not_option Hb|intros Hin; token_absurd Hin].
Qed.

Lemma optionlike_word (tok : string) :
  startswith tok "-" = false -> optionlike tok = false.
Proof. unfold optionlike. by intros ->. Qed.

Lemma find_full_word (v tok : string) :
  startswith tok "-" = false ->
  find_argument [log_argument; verbose_argument; quiet_argument;
                 version_argument v; main_help_argument] tok = None.
Proof.
  intros Hw. unfold find_argument.
  cbn [List.find option_strings log_argument verbose_argument quiet_argument
       version_argument main_help_argument].
  rewrite !bool_decide_eq_false_2; [done|word_not_option Hw..].
Qed.

Lemma find_help_word (tok : string) :
  startswith tok "-" = false ->
  find_argument (sp_arguments help_parser) tok = None.
Proof.
  intros Hw. unfold find_argument. cbn.
  rewrite !bool_decide_eq_false_2; [done| |word_not_option Hw].
  apply not_elem_of_nil.
Qed.

(** A word that is no option selects the subcommand, whose parser
    takes all that follows. *)
Lemma parse_loop_subcommand
      (fs : FileSystem) (text : string) (args : list Argument)
      (sub : Subparsers) (tok : string) (rest : list string) (ns : Namespace)
      (p : SubParser) :
  find_argument args tok = None -> optionlike tok = false ->
  name_parser_map sub !! tok = Some p ->
  parse_loop fs text args [] (Some sub) (tok :: rest) ns
  = (let* r := parse_loop fs (format_help (sp_description p) (sp_arguments p) [])
                          (sp_arguments p)
                          (filter is_positional (sp_arguments p)) None rest
                          (add_defaults (sp_arguments p) ∅) in
     ret (r.1 ∪ <[sub_dest sub := VStr tok]> ns, r.2)).
Proof. intros Hfind Hopt Hp. cbn [parse_loop]. by rewrite Hfind, Hopt, Hp. Qed.

(** The second phase on a command line that starts with a word: the
    word selects the subcommand. *)
Lemma parse_args_subcommand
      (fs : FileSystem) (v : string) (sub : Subparsers) (tok : string)
      (rest : list string) (ns : Namespace) (p : SubParser) :
  startswith tok "-" = false ->
  name_parser_map sub !! tok = Some p ->
  argparse.parse_args fs (full_parser v sub) (tok :: rest) ns
  = (let* r :=
       (let* r := parse_loop fs (format_help (sp_description p)
                                             (sp_arguments p) [])
                             (sp_arguments p)
                             (filter is_positional (sp_arguments p)) None rest
                             (add_defaults (sp_arguments p) ∅) in
        ret (r.1 ∪ <[sub_dest sub := VStr tok]>
                     (subparsers_default
                        (full_parser v sub)
                        (add_defaults (arguments (full_parser v sub)) ns)),
             r.2)) in
     match r.2 with
     | [] => ret r.1
     | _ :: _ => usage_error "unrecognized arguments"
     end).
Proof.
  intros Hword Hp. unfold argparse.parse_args, parse_known_args.
  cbn [full_parser arguments subparsers].
  change (filter is_positional [log_argument; verbose_argument; quiet_argument;
                                version_argument v; main_help_argument])
    with (@nil Argument).
  by rewrite (parse_loop_subcommand _ _ _ _ _ _ _ p);
    [|by apply find_full_word|by apply optionlike_word|].
Qed.

(** The [help] parser takes one word as its [action]. *)
Lemma parse_help_parser (fs : FileSystem) (text : string) (x : string) (s : State) :
  startswith x "-" = false ->
  parse_loop fs text (sp_arguments help_parser)
             (filter is_positional (sp_arguments help_parser)) None [x]
             (add_defaults (sp_arguments help_parser) ∅) s
  = (Returned (<["action" := VList [x]]> (<["action" := VNone]> ∅), []), s).
Proof.
  intros Hx. cbn [parse_loop].
  rewrite (find_help_word x Hx), (optionlike_word x Hx). reflexivity.
Qed.

Lemma parse_help_action (fs : FileSystem) (v : string) (sub : Subparsers)
      (x : string) (ns : Namespace) (s : State) :
  sub_dest sub = "subparser_name" ->
  name_parser_map sub !! "help" = Some help_parser ->
  startswith x "-" = false ->
  exists ns',
    argparse.parse_args fs (full_parser v sub) ["help"; x] ns s
    = (Returned ns', s) /\
    ns' !! "subparser_name" = Some (VStr "help") /\
    ns' !! "action" = Some (VList [x]).
Proof.
  intros Hdest Hhelp Hx.
  rewrite (parse_args_subcommand _ _ _ _ _ _ help_parser) by done.
  rewrite (bind_step _ _ _ _ _
             (bind_step _ _ _ _ _ (parse_help_parser fs _ x s Hx))).
  eexists. split; [reflexivity|]. cbn [fst]. rewrite Hdest. split.
  - rewrite lookup_union_r; [by rewrite lookup_insert_eq|].
    by rewrite !lookup_insert_ne, lookup_empty.
  - apply lookup_union_Some_l. by rewrite lookup_insert_eq.
Qed.

(** [x -h] in the second phase, for a subcommand whose parser has kept
    its [-h]: the help text of that parser, and exit status 0. *)
Lemma parse_subcommand_help
      (fs : FileSystem) (v : string) (sub : Subparsers) (x : string)
      (ns : Namespace) (sp : SubParser) (arg : Argument) (s : State) :
  startswith x "-" = false ->
  name_parser_map sub !! x = Some sp ->
  find_argument (sp_arguments sp) "-h" = Some arg -> arg_action arg = Help ->
  argparse.parse_args fs (full_parser v sub) [x; "-h"] ns s
  = (Exited 0,
     mkState (root_handler s)
             (written s
              ++ [HelpText (format_help (sp_description sp)
                                        (sp_arguments sp) [])])).
Proof.
  intros Hword Hp Hfind Haction.
  rewrite (parse_args_subcommand _ _ _ _ _ _ sp) by done.
  cbn [parse_loop]. rewrite Hfind, Haction. reflexivity.
Qed.

Lemma considered_named (w : World) (x : string) (rest : list string) :
  x ∈ sc_modules (subcommands w) -> x ∈ considered w (x :: rest).
Proof.
  intros Hx. unfold considered.
  assert (Hin : x ∈ filter (fun m => bool_decide (m ∈ x :: rest))
                           (sc_modules (subcommands w))).
  { apply list_elem_of_filter. split; [|done].
    apply bool_decide_pack. rewrite elem_of_cons. auto. }
  destruct (filter _ _) as [|m l]; [by apply elem_of_nil in Hin|done].
Qed.

(** When the command line names a module, only named modules are
    considered. *)
Lemma considered_named_only (w : World) (argv : list string) (m k : string) :
  m ∈ sc_modules (subcommands w) -> m ∈ argv ->
  k ∈ considered w argv -> k ∈ argv /\ k ∈ sc_modules (subcommands w).
Proof.
  intros Hm Hargv. unfold considered.
  assert (Hin : m ∈ filter (fun m => bool_decide (m ∈ argv))
                           (sc_modules (subcommands w))).
  { apply list_elem_of_filter. split; [by apply bool_decide_pack|done]. }
  destruct (filter _ _) as [|m' l] eqn:Hf; [by apply elem_of_nil in Hin|].
  rewrite <- Hf. intros [Hk Hmod]%list_elem_of_filter.
  split; [by apply bool_decide_unpack in Hk|done].
Qed.

(** When the command line names no module, all modules are
    considered. *)
Lemma considered_unnamed (w : World) (argv : list string) :
  (forall m, m ∈ sc_modules (subcommands w) -> m ∉ argv) ->
  considered w argv = sc_modules (subcommands w).
Proof.
  intros Hnone. unfold considered.
  destruct (filter _ _) as [|m l] eqn:Hf; [done|].
  assert (Hin : m ∈ filter (fun m => bool_decide (m ∈ argv))
                           (sc_modules (subcommands w)))
    by (rewrite Hf, elem_of_cons; auto).
  apply list_elem_of_filter in Hin as [Hm Hmod].
  apply bool_decide_unpack in Hm. by apply Hnone in Hm.
Qed.

Lemma import_errors_nil (w : World) (names : list string) :
  (forall name, name ∈ names -> exists p, imported w name = Ok p) ->
  import_errors w names = [].
Proof.
  induction names as [|name names IH]; intros Hok; [done|].
  cbn [import_errors omap list_omap]. fold (import_errors w names).
  destruct (Hok name) as [p ->]; [rewrite elem_of_cons; auto|].
  apply IH. intros k Hk. apply Hok. rewrite elem_of_cons. auto.
Qed.

Lemma setup_logging_configured (ns : Namespace) (s : State) (c : config) :
  well_formed ns -> root_handler s = Some c ->
  setup_logging ns s = (Returned tt, s).
Proof.
  intros [[f Hf] [k Hk]] Hc. unfold setup_logging. rewrite Hk, Hf.
  unfold basicConfig. by rewrite Hc.
Qed.

Lemma prescan_defaults_lookup :
  (<["verbosity" := VInt 0]> (<["log" := VFile StdOut]> ∅) : Namespace)
    !! "verbosity" = Some (VInt 0) /\
  (<["verbosity" := VInt 0]> (<["log" := VFile StdOut]> ∅) : Namespace)
    !! "log" = Some (VFile StdOut).
Proof. split; reflexivity. Qed.

Lemma no_help_considered (w : World) (argv : list string) :
  "help" ∉ sc_modules (subcommands w) ->
  forall p, "help" ∈ considered w argv -> imported w "help" = Ok p -> False.
Proof. intros Hhelp p Hin _. by apply considered_subset in Hin. Qed.

(** [main_body], step by step. *)
Lemma main_body_dispatch (self : list string -> M (option value)) (w : World)
      (argv : list string) :
  main_body self w argv
  = (let* r := parse_known_args (fs w) global_parser argv ∅ in
     let* _ := setup_logging r.1 in
     let* parser := parse_version w global_parser in
     let* r2 := parse_subcommands w (add_argument parser main_help_argument)
                                  r.2 in
     let* namespace := argparse.parse_args (fs w) r2.1 r.2 r.1 in
     dispatch self w r2.2 namespace).
Proof. reflexivity. Qed.

(** In a process whose logging is set to ERROR, [main] arrives at the
    second parse of the command line having written one error line for
    each considered module that does not import. *)
Lemma main_body_configured
      (self : list string -> M (option value)) (w : World)
      (argv : list string) (s : State) (c : config)
      (ns : Namespace) (extras : list string) :
  root_handler s = Some c -> cfg_level c = ERROR ->
  parse_known_args (fs w) global_parser argv ∅ s = (Returned (ns, extras), s) ->
  (forall e, pkg_version w = Err e -> exn_cls e = DistributionNotFound) ->
  "help" ∉ sc_modules (subcommands w) ->
  loads w (considered w extras) ->
  exists sub acts,
    main_body self w argv s
    = (let* namespace :=
         argparse.parse_args (fs w) (full_parser (installed_version w) sub)
                             extras ns in
       dispatch self w acts namespace)
        (mkState (root_handler s)
                 (written s
                  ++ map (error_line s)
                         (import_errors w (considered w extras)))) /\
    assembled w (considered w extras) sub acts.
Proof.
  intros Hc He Hscan Hpkg Hhelp Hloads. rewrite main_body_dispatch.
  rewrite (bind_step _ _ _ _ _ Hscan). cbn [fst snd].
  assert (Hwf : well_formed ns).
  { rewrite prescan_unfold in Hscan.
    by apply (scan_well_formed _ _ (length argv)) in Hscan
      as [Hwf _]; [|done|apply prescan_defaults_well_formed]. }
  rewrite (bind_step _ _ _ _ _ (setup_logging_configured ns s c Hwf Hc)).
  unfold parse_version. unfold bind at 1. unfold bind at 1.
  rewrite (version_quiet_installed w s c Hc He Hpkg). unfold ret at 1.
  destruct (parse_subcommands_spec
              w (add_argument
                   (add_argument global_parser
                                 (version_argument (installed_version w)))
                   main_help_argument) extras s
              (no_help_considered w extras Hhelp) Hloads)
    as (sub & acts & Hrun & Hasm).
  rewrite (bind_step _ _ _ _ _ Hrun). cbn [fst snd].
  exists sub, acts. split; [reflexivity|exact Hasm].
Qed.

(** When the lookup of the installed package raises anything but
    DistributionNotFound, [main] raises it. *)
Lemma main_body_version_raises
      (self : list string -> M (option value)) (w : World)
      (argv : list string) (s : State) (c : config)
      (ns : Namespace) (extras : list string) (e : exn) :
  root_handler s = Some c -> cfg_level c = ERROR ->
  parse_known_args (fs w) global_parser argv ∅ s = (Returned (ns, extras), s) ->
  pkg_version w = Err e -> exn_cls e <> DistributionNotFound ->
  main_body self w argv s = (Raised e, s).
Proof.
  intros Hc He Hscan Hpkg Hcls. rewrite main_body_dispatch.
  rewrite (bind_step _ _ _ _ _ Hscan). cbn [fst snd].
  assert (Hwf : well_formed ns).
  { rewrite prescan_unfold in Hscan.
    by apply (scan_well_formed _ _ (length argv)) in Hscan
      as [Hwf _]; [|done|apply prescan_defaults_well_formed]. }
  rewrite (bind_step _ _ _ _ _ (setup_logging_configured ns s c Hwf Hc)).
  unfold parse_version. unfold bind at 1. unfold bind at 1.
  rewrite (version_quiet w s c Hc He), Hpkg.
  by rewrite bool_decide_eq_false_2.
Qed.

(** In a fresh process and without global options, [main] goes on as
    in a process whose logging is set to ERROR on standard output. *)
Lemma main_body_defaults
      (self : list string -> M (option value)) (w : World)
      (argv extras : list string) (s : State) :
  (forall s', parse_known_args (fs w) global_parser argv ∅ s'
              = (Returned (<["verbosity" := VInt 0]>
                             (<["log" := VFile StdOut]> ∅), extras), s')) ->
  root_handler s = None ->
  main_body self w argv s
  = main_body self w argv
              (mkState (Some (Config StdOut "classifier %(message)s" ERROR))
                       (written s)).
Proof.
  intros Hscan Hs. rewrite main_body_dispatch.
  rewrite !(bind_step _ _ _ _ _ (Hscan _)). cbn [fst snd].
  destruct prescan_defaults_lookup as [Hv Hl].
  rewrite (bind_step _ _ _ _ _ (setup_logging_fresh _ StdOut 0 s Hv Hl Hs)).
  rewrite (bind_step _ _ _ _ _
             (setup_logging_configured
                _ (mkState (Some (Config StdOut "classifier %(message)s" ERROR))
                           (written s))
                _ prescan_defaults_well_formed eq_refl)).
  reflexivity.
Qed.

Lemma prescan_word (fs : FileSystem) (x : string) (s : State) :
  startswith x "-" = false ->
  parse_known_args fs global_parser [x] ∅ s
  = (Returned (<["verbosity" := VInt 0]> (<["log" := VFile StdOut]> ∅), [x]), s).
Proof.
  intros Hx. rewrite prescan_unfold, scan_other; [done|word_not_option Hx..].
Qed.

Lemma loads_subset (w : World) (names names' : list string) :
  loads w names -> (forall k, k ∈ names' -> k ∈ names) -> loads w names'.
Proof. intros Hloads Hsub name p Hin. apply Hloads. by apply Hsub. Qed.

Lemma loads_considered (w : World) (argv : list string) :
  loads w (sc_modules (subcommands w)) -> loads w (considered w argv).
Proof.
  intros Hloads. apply (loads_subset w _ _ Hloads).
  intros k. apply considered_subset.
Qed.

Lemma loads_single
      (w : World) (x : string) (p : Plugin) (d : string) (sp : SubParser)
      (a : Namespace -> M value) (names : list string) :
  imported w x = Ok p -> registers w x p d sp a ->
  (forall k, k ∈ names -> k = x) -> loads w names.
Proof.
  intros Himp Hreg Hnames name q Hin Hq. apply Hnames in Hin as ->.
  rewrite Himp in Hq. injection Hq as <-. by exists d, sp, a.
Qed.

Lemma considered_help (w : World) (x name : string) :
  x ∈ sc_modules (subcommands w) -> "help" ∉ sc_modules (subcommands w) ->
  name ∈ considered w ["help"; x] -> name = x.
Proof.
  intros Hx Hhelp Hin.
  apply (considered_named_only w _ x) in Hin as [Hin Hmod];
    [|done|rewrite !elem_of_cons; auto].
  rewrite !elem_of_cons, elem_of_nil in Hin.
  destruct Hin as [->|[->|[]]]; [by destruct Hhelp|done].
Qed.

(** [help x] in a process whose logging is set to ERROR: the grammar is
    built and the call passes to [x -h]. *)
Lemma main_body_help
      (self : list string -> M (option value)) (w : World) (x : string)
      (s : State) (c : config) :
  root_handler s = Some c -> cfg_level c = ERROR ->
  startswith x "-" = false ->
  (forall e, pkg_version w = Err e -> exn_cls e = DistributionNotFound) ->
  "help" ∉ sc_modules (subcommands w) ->
  loads w (considered w ["help"; x]) ->
  main_body self w ["help"; x] s
  = self [x; "-h"]
         (mkState (root_handler s)
                  (written s
                   ++ map (error_line s)
                          (import_errors w (considered w ["help"; x])))).
Proof.
  intros Hc He Hword Hpkg Hhelp Hloads.
  destruct (main_body_configured
              self w ["help"; x] s c _ _ Hc He
              (prescan_words (fs w) "help" x s eq_refl (or_introl Hword))
              Hpkg Hhelp Hloads)
    as (sub & acts & -> & Hdest & _ & Hparser & _).
  match goal with
  | |- context [argparse.parse_args ?fs0 ?p0 ?argv0 ?ns0] =>
      destruct (parse_help_action (fs w) (installed_version w) sub x ns0
                  (mkState (root_handler s)
                           (written s
                            ++ map (error_line s)
                                   (import_errors
                                      w (considered w ["help"; x]))))
                  Hdest Hparser Hword)
        as (ns' & Hparse & Hname & Haction)
  end.
  rewrite (bind_step _ _ _ _ _ Hparse). unfold dispatch.
  rewrite Hname, Haction. by rewrite decide_True.
Qed.

(** [x -h] in a process whose logging is set to ERROR, for a
    subcommand whose parser has kept its [-h]: the help text of that
    parser is written after the error lines and the process exits with
    status 0. *)
Lemma main_body_dash_h
      (self : list string -> M (option value)) (w : World) (x : string)
      (sp : SubParser) (arg : Argument) (s : State) (c : config) :
  root_handler s = Some c -> cfg_level c = ERROR ->
  startswith x "-" = false ->
  (forall e, pkg_version w = Err e -> exn_cls e = DistributionNotFound) ->
  "help" ∉ sc_modules (subcommands w) ->
  loads w (considered w [x; "-h"]) ->
  (x = "help" /\ sp = help_parser \/
   exists p d a, x ∈ sc_modules (subcommands w) /\ imported w x = Ok p /\
                 registers w x p d sp a) ->
  find_argument (sp_arguments sp) "-h" = Some arg -> arg_action arg = Help ->
  main_body self w [x; "-h"] s
  = (Exited 0,
     mkState (root_handler s)
             ((written s
               ++ map (error_line s)
                      (import_errors w (considered w [x; "-h"])))
              ++ [HelpText (format_help (sp_description sp)
                                        (sp_arguments sp) [])])).
Proof.
  intros Hc He Hword Hpkg Hhelp Hloads Hx Hfind Haction.
  destruct (main_body_configured
              self w [x; "-h"] s c _ _ Hc He
              (prescan_words (fs w) x "-h" s Hword (or_intror eq_refl))
              Hpkg Hhelp Hloads)
    as (sub & acts & -> & _ & _ & Hparser & _ & _ & _ & Hin).
  assert (Hsp : name_parser_map sub !! x = Some sp).
  { destruct Hx as [[-> ->]|(p & d & a & Hmod & Himp & Hreg)]; [done|].
    by apply (Hin x p d sp a); [apply considered_named|..]. }
  unfold bind at 1.
  by rewrite (parse_subcommand_help _ _ _ _ _ sp arg).
Qed.

(** C1, as the code has it. In a fresh process, for every registered
    subcommand [x], [main] on [help x] ends as [main] on [x -h] does:
    the [help] branch calls [main] again on the list [x, -h]. For a
    subcommand module that imports and registers, the two give the
    same result and write the same, the help text of the parser of [x]
    when that has kept its [-h]. For [help] itself the two exit with
    status 0 after the same help text, that of the [help] parser, but
    each pass considers all modules, and the error lines of those that
    do not import are written twice by [help help], once by [help -h].
    The name [help] is not one of the modules. *)
Theorem help_is_dash_h (w : World) (s : State) :
  "help" ∉ sc_modules (subcommands w) -> root_handler s = None ->
  (forall x p d sp a,
      x ∈ sc_modules (subcommands w) -> imported w x = Ok p ->
      registers w x p d sp a -> startswith x "-" = false ->
      (forall n, main (S (S n)) w ["help"; x] s = main (S n) w [x; "-h"] s) /\
      (forall arg,
          (forall e, pkg_version w = Err e -> exn_cls e = DistributionNotFound) ->
          loads w (considered w [x; "-h"]) ->
          find_argument (sp_arguments sp) "-h" = Some arg ->
          arg_action arg = Help ->
          forall n,
            main (S (S n)) w ["help"; x] s
            = (Exited 0,
               mkState (Some (Config StdOut "classifier %(message)s" ERROR))
                       ((written s
                         ++ map (LogLine StdOut "classifier %(message)s" ERROR)
                                (import_errors w (considered w [x; "-h"])))
                        ++ [HelpText (format_help (sp_description sp)
                                                  (sp_arguments sp) [])])))) /\
  ((forall e, pkg_version w = Err e -> exn_cls e = DistributionNotFound) ->
   loads w (sc_modules (subcommands w)) ->
   forall n,
     main (S (S n)) w ["help"; "help"] s
     = (Exited 0,
        mkState (Some (Config StdOut "classifier %(message)s" ERROR))
                (written s
                 ++ map (LogLine StdOut "classifier %(message)s" ERROR)
                        (import_errors w (sc_modules (subcommands w)))
                 ++ map (LogLine StdOut "classifier %(message)s" ERROR)
                        (import_errors w (considered w ["help"; "-h"]))
                 ++ [HelpText (format_help (sp_description help_parser)
                                           (sp_arguments help_parser) [])])) /\
     main (S n) w ["help"; "-h"] s
     = (Exited 0,
        mkState (Some (Config StdOut "classifier %(message)s" ERROR))
                (written s
                 ++ map (LogLine StdOut "classifier %(message)s" ERROR)
                        (import_errors w (considered w ["help"; "-h"]))
                 ++ [HelpText (format_help (sp_description help_parser)
                                           (sp_arguments help_parser) [])]))).
Proof.
  intros Hhelp Hs.
  set (cfg := Config StdOut "classifier %(message)s" ERROR).
  set (s0 := mkState (Some cfg) (written s)).
  assert (Hfresh : forall self a b,
             startswith a "-" = false ->
             (startswith b "-" = false \/ b = "-h") ->
             main_body self w [a; b] s = main_body self w [a; b] s0).
  { intros self a b Ha Hb.
    apply (main_body_defaults self w [a; b] [a; b] s); [|done].
    intros s'. by apply prescan_words. }
  split.
  - intros x p d sp a Hx Himp Hreg Hword.
    assert (Hloads : loads w (considered w ["help"; x])).
    { apply (loads_single w x p d sp a); [done..|].
      intros k. by apply considered_help. }
    assert (Hnone : import_errors w (considered w ["help"; x]) = []).
    { apply import_errors_nil. intros name Hname.
      apply considered_help in Hname as ->; eauto. }
    assert (Heq : forall n,
               main (S (S n)) w ["help"; x] s = main (S n) w [x; "-h"] s).
    { intros n.
      change (main (S (S n)) w ["help"; x] s)
        with (main_body (main (S n) w) w ["help"; x] s).
      change (main (S n) w [x; "-h"] s)
        with (main_body (main n w) w [x; "-h"] s).
      rewrite (Hfresh _ "help" x eq_refl (or_introl Hword)).
      rewrite (Hfresh _ x "-h" Hword (or_intror eq_refl)).
      destruct (pkg_version w) as [v|e] eqn:Hpkg.
      - rewrite (main_body_help _ w x s0 cfg eq_refl eq_refl Hword);
          [|by rewrite Hpkg|done|done].
        rewrite Hnone. cbn [map root_handler written s0]. by rewrite app_nil_r.
      - destruct (decide (exn_cls e = DistributionNotFound)) as [Hcls|Hcls].
        + rewrite (main_body_help _ w x s0 cfg eq_refl eq_refl Hword);
            [|rewrite Hpkg; by intros e' [= <-]|done|done].
          rewrite Hnone. cbn [map root_handler written s0].
          by rewrite app_nil_r.
        + rewrite (main_body_version_raises
                     _ w ["help"; x] s0 cfg _ _ e eq_refl eq_refl
                     (prescan_words (fs w) "help" x s0 eq_refl
                                    (or_introl Hword)) Hpkg Hcls).
          by rewrite (main_body_version_raises
                        _ w [x; "-h"] s0 cfg _ _ e eq_refl eq_refl
                        (prescan_words (fs w) x "-h" s0 Hword
                                       (or_intror eq_refl)) Hpkg Hcls). }
    split; [exact Heq|].
    intros arg Hpkg Hloads' Hfind Haction n. rewrite Heq.
    change (main (S n) w [x; "-h"] s)
      with (main_body (main n w) w [x; "-h"] s).
    rewrite (Hfresh _ x "-h" Hword (or_intror eq_refl)).
    by rewrite (main_body_dash_h _ w x sp arg s0 cfg eq_refl eq_refl Hword
                                 Hpkg Hhelp Hloads'
                                 (or_intror (ex_intro _ p (ex_intro _ d
                                    (ex_intro _ a (conj Hx (conj Himp Hreg))))))
                                 Hfind Haction).
  - intros Hpkg Hloads n.
    assert (Hdash : forall self s1,
               root_handler s1 = Some cfg ->
               main_body self w ["help"; "-h"] s1
               = (Exited 0,
                  mkState (Some cfg)
                          ((written s1
                            ++ map (LogLine StdOut "classifier %(message)s"
                                            ERROR)
                                   (import_errors
                                      w (considered w ["help"; "-h"])))
                           ++ [HelpText
                                 (format_help (sp_description help_parser)
                                              (sp_arguments help_parser)
                                              [])]))).
    { intros self s1 Hs1.
      rewrite (main_body_dash_h self w "help" help_parser help_argument s1 cfg
                                Hs1 eq_refl eq_refl Hpkg Hhelp
                                (loads_considered w _ Hloads)
                                (or_introl (conj eq_refl eq_refl))
                                eq_refl eq_refl).
      rewrite Hs1. unfold error_line. by rewrite Hs1. }
    split.
    + change (main (S (S n)) w ["help"; "help"] s)
        with (main_body (main (S n) w) w ["help"; "help"] s).
      rewrite (Hfresh _ "help" "help" eq_refl (or_introl eq_refl)).
      rewrite (main_body_help _ w "help" s0 cfg eq_refl eq_refl eq_refl
                              Hpkg Hhelp (loads_considered w _ Hloads)).
      rewrite considered_unnamed.
      2:{ intros m Hm Hin. rewrite !elem_of_cons, elem_of_nil in Hin.
          destruct Hin as [->|[->|[]]]; by destruct Hhelp. }
      change (main (S n) w ["help"; "-h"])
        with (main_body (main n w) w ["help"; "-h"]).
      rewrite Hdash by done. cbn [written root_handler s0].
      by rewrite <- !app_assoc.
    + change (main (S n) w ["help"; "-h"] s)
        with (main_body (main n w) w ["help"; "-h"] s).
      rewrite (Hfresh _ "help" "-h" eq_refl (or_intror eq_refl)).
      rewrite Hdash by done. cbn [written s0]. by rewrite <- !app_assoc.
Qed.

Lemma help_is_dash_h_witness :
  main 2 Scenario.checkout ["help"; "classify"] initial
  = main 1 Scenario.checkout ["classify"; "-h"] initial /\
  (main 2 Scenario.checkout ["help"; "classify"] initial).1 = Exited 0 /\
  (main 2 Scenario.checkout ["help"; "help"] initial).1 = Exited 0.
Proof.
  destruct (help_is_dash_h Scenario.checkout initial) as [Hmodule Hself].
  - simpl. intros Hin. token_absurd Hin.
  - reflexivity.
  - assert (Hin : "classify" ∈ sc_modules (subcommands Scenario.checkout))
      by (simpl; rewrite !elem_of_cons; auto).
    destruct (Hmodule _ _ _ _ _ Hin eq_refl
                      (plugin_registers Scenario.checkout "classify"
                                        "Classify sequences" eq_refl)
                      eq_refl) as [Heq Hexit].
    split; [apply Heq|]. split.
    + rewrite (Hexit help_argument);
        [reflexivity| |apply checkout_loads|reflexivity|reflexivity].
      intros e [= <-]. reflexivity.
    + destruct (Hself ltac:(by intros e [= <-]) (checkout_loads _) 0)
        as [-> _]. reflexivity.
Defined.

(** C1 as stated fails for the subcommand [help] itself: the module
    [broken] does not import, [help help] writes its error line twice,
    [help -h] once, before the same help text. *)
Lemma help_help_logs_twice :
  main 2 Scenario.checkout ["help"; "help"] initial
  = (Exited 0,
     mkState (Some (Config StdOut "classifier %(message)s" ERROR))
             [LogLine StdOut "classifier %(message)s" ERROR
                      "No module named pandas";
              LogLine StdOut "classifier %(message)s" ERROR
                      "No module named pandas";
              HelpText (format_help None (sp_arguments help_parser) [])]) /\
  main 1 Scenario.checkout ["help"; "-h"] initial
  = (Exited 0,
     mkState (Some (Config StdOut "classifier %(message)s" ERROR))
             [LogLine StdOut "classifier %(message)s" ERROR
                      "No module named pandas";
              HelpText (format_help None (sp_arguments help_parser) [])]) /\
  main 2 Scenario.checkout ["help"; "help"] initial
  <> main 1 Scenario.checkout ["help"; "-h"] initial.
Proof.
  assert (H2 : main 2 Scenario.checkout ["help"; "help"] initial
               = (Exited 0,
                  mkState (Some (Config StdOut "classifier %(message)s" ERROR))
                          [LogLine StdOut "classifier %(message)s" ERROR
                                   "No module named pandas";
                           LogLine StdOut "classifier %(message)s" ERROR
                                   "No module named pandas";
                           HelpText (format_help None
                                       (sp_arguments help_parser) [])]))
    by (vm_compute; reflexivity).
  assert (H1 : main 1 Scenario.checkout ["help"; "-h"] initial
               = (Exited 0,
                  mkState (Some (Config StdOut "classifier %(message)s" ERROR))
                          [LogLine StdOut "classifier %(message)s" ERROR
                                   "No module named pandas";
                           HelpText (format_help None
                                       (sp_arguments help_parser) [])]))
    by (vm_compute; reflexivity).
  split; [exact H2|]. split; [exact H1|].
  rewrite H2, H1. intros [= Heq]. 
Qed.
(** ** groupbyl *)

Section GroupingProperties.
Context {A K : Type} `{Countable K}.
Variable ltb : K -> K -> bool.
Variable key : A -> K.

(** The comparison of keys is a strict total order. *)
Hypothesis ltb_irrefl : forall a, ltb a a = false.
Hypothesis ltb_trans :
  forall a b c, ltb a b = true -> ltb b c = true -> ltb a c = true.
Hypothesis ltb_total : forall a b, a <> b -> ltb a b = true \/ ltb b a = true.

(** [x] may stand before [y] in a list sorted by key. *)
Let le_key (x y : A) : Prop := ltb (key y) (key x) = false.
Let lt_k (a b : K) : Prop := ltb a b = true.

Lemma ltb_asym (a b : K) : ltb a b = true -> ltb b a = false.
Proof.
  intros Hab. destruct (ltb b a) eqn:Hba; [|done].
  by rewrite <- (ltb_irrefl a), <- (ltb_trans a b a Hab Hba).
Qed.





Lemma insert_by_HdRel (x y : A) (l : list A) :
  HdRel le_key y l -> le_key y x -> HdRel le_key y (insert_by ltb key x l).
Proof.
  intros Hl Hx. destruct l as [|z l]; simpl; [by constructor|].
  destruct (ltb (key z) (key x)); constructor; [|done].
  by inversion Hl.
Qed.

Lemma insert_by_sorted (x : A) (l : list A) :
  Sorted le_key l -> Sorted le_key (insert_by ltb key x l).
Proof.
  induction 1 as [|y l Hl IH Hhd]; simpl; [by repeat constructor|].
  destruct (ltb (key y) (key x)) eqn:Hyx.
  - constructor; [done|]. apply insert_by_HdRel; [done|].
    by apply ltb_asym.
  - constructor; [by constructor|]. by constructor.
Qed.

Lemma sorted_sorted (l : list A) : Sorted le_key (sorted ltb key l).
Proof.
  induction l as [|x l IH]; simpl; [constructor|].
  by apply insert_by_sorted.
Qed.

(** On a list sorted by key the keys of the groups increase. *)
Lemma groupby_from_keys (l : list A) :
  forall (k : K) (run : list A),
    Sorted le_key l ->
    (forall y, head l = Some y -> ltb (key y) k = false) ->
    exists rest,
      (groupby_from key k run l).*1 = k :: rest /\ Sorted lt_k (k :: rest).
Proof.
  induction l as [|y l IH]; intros k run Hs Hhd; simpl.
  - exists []. split; [done|]. by repeat constructor.
  - apply Sorted_inv in Hs as [Hs Hy].
    destruct (decide (key y = k)) as [Hk|Hk].
    + apply IH; [done|]. intros z Hz. destruct l as [|z' l]; [done|].
      injection Hz as ->. apply HdRel_inv in Hy. by rewrite <- Hk.
    + destruct (IH (key y) [y] Hs) as (rest & Hkeys & Hsorted).
      { intros z Hz. destruct l as [|z' l]; [done|].
        injection Hz as ->. by apply HdRel_inv in Hy. }
      exists (key y :: rest). rewrite fmap_cons, Hkeys. split; [done|].
      constructor; [done|]. constructor.
      destruct (ltb_total k (key y)) as [Hlt|Hlt]; [done|done|].
      by rewrite (Hhd y eq_refl) in Hlt.
Qed.










End GroupingProperties.

(** The example of the grouping: b1, a2, b3 keyed by the letter. *)
Example groupbyl_records :
  groupbyl Scenario.ascii_ltb fst Scenario.records false
  = Pairs [("a"%char, [("a"%char, 2)]);
           ("b"%char, [("b"%char, 1); ("b"%char, 3)])].
Proof. reflexivity. Qed.




(** * Further properties *)

(** ** get_compression *)

Lemma list_ascii_of_string_app (s1 s2 : string) :
  list_ascii_of_string (s1 ++ s2)
  = (list_ascii_of_string s1 ++ list_ascii_of_string s2)%list.
Proof. induction s1 as [|a s1 IH]; simpl; [done|]. by rewrite IH. Qed.

Lemma is_prefix_app (p q : list ascii) : is_prefix p (p ++ q)%list = true.
Proof.
  induction p as [|a p IH]; simpl; [done|]. by rewrite Ascii.eqb_refl, IH.
Qed.

Lemma endswith_suffix (s suffix : string) (la : list ascii) :
  list_ascii_of_string s = (la ++ list_ascii_of_string suffix)%list ->
  endswith s suffix = true.
Proof.
  intros Hs. unfold endswith. rewrite Hs, rev_app_distr. apply is_prefix_app.
Qed.

Lemma rfind_app_found (c : ascii) (l1 l2 : list ascii) (i : nat) :
  rfind c l2 = Some i -> rfind c (l1 ++ l2)%list = Some (length l1 + i)%nat.
Proof.
  intros Hi. induction l1 as [|a l1 IH]; simpl; [done|]. by rewrite IH.
Qed.

Lemma rfind_app_absent (c : ascii) (l1 l2 : list ascii) :
  rfind c l2 = None -> rfind c (l1 ++ l2)%list = rfind c l1.
Proof.
  intros Hi. induction l1 as [|a l1 IH]; simpl; [done|]. by rewrite IH.
Qed.


(** A non-empty extension is the end of the name. *)
Lemma splitext_ext_suffix (p : string) :
  (splitext p).2 <> "" ->
  exists la, list_ascii_of_string p
             = (la ++ list_ascii_of_string (splitext p).2)%list.
Proof.
  unfold splitext.
  destruct (_ <? _)%Z; [|done]. destruct (existsb _ _); [|done].
  intros _. cbn [snd]. eexists.
  by rewrite list_ascii_of_string_of_list_ascii, take_drop.
Qed.

Lemma compress_ops_lookup (ext c : string) :
  compress_ops !! ext = Some c ->
  (ext = ".gz" /\ c = "gzip") \/ (ext = ".bz2" /\ c = "bz2").
Proof.
  unfold compress_ops. rewrite lookup_insert.
  case_decide as Hgz; [intros [= <-]; auto|].
  rewrite lookup_singleton. case_decide as Hbz; [intros [= <-]; auto|done].
Qed.

(** X1. When [get_compression] names a compression for a file name,
    [opener] opens that name with the same codec: gzip with
    [gzip.open], bz2 with [bz2.open]; and it names no other one. *)
Theorem get_compression_agrees_with_opener
        (fs : FileSystem) (mode f c : string) :
  get_compression (Name f) = Returned (Some c) ->
  (c = "gzip" /\ opener fs mode (Name f) = open_with fs Gzip f mode) \/
  (c = "bz2" /\ opener fs mode (Name f) = open_with fs Bz2 f mode).
Proof.
  unfold get_compression. intros [= Hc].
  destruct (splitext_ext_suffix f) as [la Hla].
  { intros Hext. by rewrite Hext in Hc. }
  apply compress_ops_lookup in Hc as [[Hext ->]|[Hext ->]];
    rewrite Hext in Hla; apply endswith_suffix in Hla; [left|right];
    (split; [done|]); unfold opener, open_file.
  - rewrite (endswith_not_dash f ".gz") by done.
    by rewrite (endswith_gz_not_bz2 f Hla), Hla.
  - rewrite (endswith_not_dash f ".bz2") by done. by rewrite Hla.
Qed.

Lemma get_compression_agrees_with_opener_witness :
  opener Scenario.plain_fs "rt" (Name "hits/reads.csv.gz")
  = open_with Scenario.plain_fs Gzip "hits/reads.csv.gz" "rt".
Proof.
  destruct (get_compression_agrees_with_opener
              Scenario.plain_fs "rt" "hits/reads.csv.gz" "gzip")
    as [[_ Hgz]|[Hbz _]]; [vm_compute; reflexivity|exact Hgz|discriminate Hbz].
Defined.




Lemma endswith_slash (d : string) :
  endswith d "/" = true ->
  exists la, list_ascii_of_string d = (la ++ ["/"%char])%list.
Proof.
  unfold endswith. simpl.
  destruct (rev (list_ascii_of_string d)) as [|c r] eqn:Hr; simpl; [done|].
  rewrite andb_true_r. intros Hc%Ascii.eqb_eq. subst c. exists (rev r).
  by rewrite <- (rev_involutive (list_ascii_of_string d)), Hr.
Qed.

(** X3. A name that is only an extension, [.gz] or [.bz2] alone or
    right after a slash, has no compression for [get_compression],
    while [opener] still opens it with the codec of the suffix. *)
Theorem get_compression_hidden_name
        (fs : FileSystem) (mode d : string) :
  d = "" \/ endswith d "/" = true ->
  get_compression (Name (d ++ ".gz")) = Returned None /\
  get_compression (Name (d ++ ".bz2")) = Returned None /\
  opener fs mode (Name (d ++ ".gz")) = open_with fs Gzip (d ++ ".gz") mode /\
  opener fs mode (Name (d ++ ".bz2")) = open_with fs Bz2 (d ++ ".bz2") mode.
Proof.
  intros Hd.
  assert (Hext : forall e,
             rfind "." (list_ascii_of_string e) = None ->
             rfind "/" (list_ascii_of_string e) = None ->
             (splitext (d ++ String "." e)).2 = "").
  { intros e Hedot Hesep. unfold splitext.
    rewrite list_ascii_of_string_app. cbn [list_ascii_of_string].
    set (ld := list_ascii_of_string d).
    set (le := list_ascii_of_string e) in *.
    assert (Hdotidx : str_rfind (ld ++ "."%char :: le) "." = Z.of_nat (length ld)).
    { unfold str_rfind. rewrite (rfind_app_found _ _ _ 0%nat).
      - f_equal. lia.
      - simpl. by rewrite Hedot. }
    assert (Hsepidx : str_rfind (ld ++ "."%char :: le) "/"
                      = (Z.of_nat (length ld) - 1)%Z).
    { unfold str_rfind. rewrite rfind_app_absent by (simpl; by rewrite Hesep).
      destruct Hd as [Hd|Hd].
      - subst ld. by rewrite Hd.
      - apply endswith_slash in Hd as [la Hla]. fold ld in Hla. rewrite Hla.
        rewrite (rfind_app_found _ _ _ 0%nat) by done.
        rewrite length_app. simpl. lia. }
    rewrite Hdotidx, Hsepidx.
    destruct (Z.ltb_spec (Z.of_nat (length ld) - 1) (Z.of_nat (length ld)));
      [|done].
    replace (Z.to_nat (Z.of_nat (length ld) - (Z.of_nat (length ld) - 1 + 1)))
      with 0%nat by lia.
    by rewrite take_0. }
  assert (Hend : forall e, endswith (d ++ e) e = true).
  { intros e. apply (endswith_suffix _ _ (list_ascii_of_string d)).
    apply list_ascii_of_string_app. }
  unfold get_compression. rewrite !Hext by done.
  split; [done|]. split; [done|]. unfold opener, open_file. split.
  - rewrite (endswith_not_dash (d ++ ".gz") ".gz") by done.
    by rewrite (endswith_gz_not_bz2 _ (Hend ".gz")), (Hend ".gz").
  - rewrite (endswith_not_dash (d ++ ".bz2") ".bz2") by done.
    by rewrite (Hend ".bz2").
Qed.

Lemma get_compression_hidden_name_witness :
  get_compression (Name "out/.gz") = Returned None /\
  opener Scenario.plain_fs "rt" (Name "out/.gz")
  = open_with Scenario.plain_fs Gzip "out/.gz" "rt".
Proof.
  destruct (get_compression_hidden_name Scenario.plain_fs "rt" "out/")
    as (Hnone & _ & Hgz & _); [right; reflexivity|].
  split; [exact Hnone|exact Hgz].
Defined.

(** ** Logging set-up *)

Lemma setup_logging_returns (ns : Namespace) (s : State) :
  well_formed ns ->
  exists s', setup_logging ns s = (Returned tt, s') /\
             written s' = written s /\
             (forall c, root_handler s = Some c -> s' = s).
Proof.
  intros [[f Hf] [k Hk]]. unfold setup_logging. rewrite Hk, Hf.
  unfold basicConfig. destruct (root_handler s) as [c|] eqn:Hc.
  - exists s. by repeat split.
  - eexists. repeat split. done.
Qed.

(** X4. Logging is set up once in a process: after a first
    [setup_logging] a second one, whatever its namespace asks for,
    leaves the configuration and the output as they are. *)
Theorem setup_logging_once (ns1 ns2 : Namespace) (s : State) :
  well_formed ns1 -> well_formed ns2 ->
  exists s1,
    setup_logging ns1 s = (Returned tt, s1) /\
    is_Some (root_handler s1) /\
    setup_logging ns2 s1 = (Returned tt, s1).
Proof.
  intros [[f1 Hf1] [k1 Hk1]] Hwf2.
  unfold setup_logging at 1. rewrite Hk1, Hf1. unfold basicConfig.
  destruct (root_handler s) as [c|] eqn:Hc.
  - exists s. split; [done|]. split; [by rewrite Hc|].
    by apply (setup_logging_configured ns2 s c).
  - eexists. split; [done|]. split; [by eexists|].
    by eapply setup_logging_configured.
Qed.

Lemma setup_logging_once_witness :
  exists s1,
    setup_logging (<["verbosity" := VInt 0]> (<["log" := VFile StdOut]> ∅))
                  initial = (Returned tt, s1) /\
    setup_logging (<["verbosity" := VInt 3]> (<["log" := VFile StdErr]> ∅)) s1
    = (Returned tt, s1).
Proof.
  destruct (setup_logging_once
              (<["verbosity" := VInt 0]> (<["log" := VFile StdOut]> ∅))
              (<["verbosity" := VInt 3]> (<["log" := VFile StdErr]> ∅))
              initial) as (s1 & H1 & _ & H2).
  - apply prescan_defaults_well_formed.
  - split; [by exists StdErr|by exists 3%Z].
  - by exists s1.
Defined.

(** X5. The format of the log lines goes with the level: for a
    verbosity that is not negative, the lines carry the level name and
    the line number exactly when the level is INFO or DEBUG, and are the
    bare message for ERROR and WARNING. *)
Theorem logformat_by_level (ns : Namespace) (f : stream) (v : Z) (s : State) :
  ns !! "verbosity" = Some (VInt v) -> ns !! "log" = Some (VFile f) ->
  root_handler s = None -> (0 <= v)%Z ->
  exists c,
    setup_logging ns s = (Returned tt, mkState (Some c) (written s)) /\
    cfg_stream c = f /\
    (cfg_level c = INFO \/ cfg_level c = DEBUG ->
     cfg_format c = "%(levelname)s classifier %(lineno)s %(message)s") /\
    (cfg_level c = ERROR \/ cfg_level c = WARNING ->
     cfg_format c = "classifier %(message)s").
Proof.
  intros Hv Hl Hs Hpos. eexists. split; [by apply setup_logging_fresh|].
  cbn [cfg_stream cfg_level cfg_format]. split; [done|].
  destruct (decide (v = 0%Z)) as [->|H0]; [split; by intros [?|?]|].
  destruct (decide (v = 1%Z)) as [->|H1]; [split; by intros [?|?]|].
  destruct (decide (v = 2%Z)) as [->|H2]; [split; by intros [?|?]|].
  rewrite loglevel_from_three by lia.
  destruct (Z.ltb_spec 1 v); [|lia]. split; [done|by intros [?|?]].
Qed.

Lemma logformat_by_level_witness :
  exists c,
    setup_logging (<["verbosity" := VInt 2]> (<["log" := VFile StdOut]> ∅))
                  initial = (Returned tt, mkState (Some c) []) /\
    cfg_format c = "%(levelname)s classifier %(lineno)s %(message)s".
Proof.
  destruct (logformat_by_level
              (<["verbosity" := VInt 2]> (<["log" := VFile StdOut]> ∅))
              StdOut 2%Z initial) as (c & Hrun & _ & Hdetail & _);
    [vm_compute; reflexivity|vm_compute; reflexivity|reflexivity|lia|].
  exists c. split; [exact Hrun|]. apply Hdetail.
  injection Hrun as <-. by left.
Defined.

(** ** main: what the command line leads to *)

Lemma version_returns (w : World) (s : State) :
  (forall e, pkg_version w = Err e -> exn_cls e = DistributionNotFound) ->
  exists v s', version w s = (Returned v, s').
Proof.
  intros Hpkg. destruct (version_unfold w s) as [s1 ->].
  destruct (pkg_version w) as [v|e] eqn:Hv.
  - by eexists _, _.
  - rewrite bool_decide_eq_true_2 by (by apply Hpkg).
    unfold bind at 1. unfold bind at 1.
    destruct (logging_log_returns WARNING (exn_msg e) s1) as [s2 ->].
    by eexists _, _.
Qed.

(** When the first phase returns, the version resolves and the
    considered modules register, [main] arrives at the parse of the
    rest of the command line with the full grammar. *)
Lemma main_body_reaches_parse
      (self : list string -> M (option value)) (w : World)
      (argv : list string) (s : State) (ns : Namespace) (extras : list string) :
  parse_known_args (fs w) global_parser argv ∅ s = (Returned (ns, extras), s) ->
  (forall e, pkg_version w = Err e -> exn_cls e = DistributionNotFound) ->
  "help" ∉ sc_modules (subcommands w) ->
  loads w (considered w extras) ->
  exists v sub acts s2,
    main_body self w argv s
    = (let* namespace :=
         argparse.parse_args (fs w) (full_parser v sub) extras ns in
       dispatch self w acts namespace) s2 /\
    well_formed ns /\
    assembled w (considered w extras) sub acts.
Proof.
  intros Hscan Hpkg Hhelp Hloads. rewrite main_body_dispatch.
  rewrite (bind_step _ _ _ _ _ Hscan). cbn [fst snd].
  assert (Hwf : well_formed ns).
  { rewrite prescan_unfold in Hscan.
    by apply (scan_well_formed _ _ (length argv)) in Hscan
      as [Hwf _]; [|done|apply prescan_defaults_well_formed]. }
  destruct (setup_logging_returns ns s Hwf) as (s1 & Hsetup & _).
  rewrite (bind_step _ _ _ _ _ Hsetup).
  destruct (version_returns w s1 Hpkg) as (v & s1' & Hver).
  unfold parse_version. unfold bind at 1. unfold bind at 1. rewrite Hver.
  unfold ret at 1.
  destruct (parse_subcommands_spec
              w (add_argument (add_argument global_parser (version_argument v))
                              main_help_argument) extras s1'
              (no_help_considered w extras Hhelp) Hloads)
    as (sub & acts & Hrun & Hasm).
  rewrite (bind_step _ _ _ _ _ Hrun). cbn [fst snd].
  exists v, sub, acts. eexists. split; [reflexivity|].
  split; [exact Hwf|exact Hasm].
Qed.

Lemma add_defaults_full (v : string) (ns : Namespace) :
  well_formed ns ->
  add_defaults [log_argument; verbose_argument; quiet_argument;
                version_argument v; main_help_argument] ns = ns.
Proof.
  intros [[f Hf] [k Hk]]. unfold add_defaults. cbn.
  rewrite Hf. cbv iota. rewrite Hk. cbv iota. by rewrite Hk.
Qed.

(** Without a word on the command line no subcommand is chosen. *)
Lemma parse_args_no_subcommand
      (fs : FileSystem) (v : string) (sub : Subparsers)
      (ns : Namespace) (s : State) :
  sub_dest sub = "subparser_name" -> well_formed ns ->
  ns !! "subparser_name" = None ->
  argparse.parse_args fs (full_parser v sub) [] ns s
  = (Returned (<["subparser_name" := VNone]> ns), s).
Proof.
  intros Hdest Hwf Hnone. unfold argparse.parse_args, parse_known_args.
  cbn [full_parser arguments subparsers]. rewrite add_defaults_full by done.
  unfold subparsers_default, full_parser. cbn [subparsers].
  rewrite Hdest, Hnone.
  reflexivity.
Qed.

Section VerbosityFlags.
Variable fs : FileSystem.
Variable text : string.

Let scan := parse_loop fs text [log_argument; verbose_argument; quiet_argument]
                       [] None.

(** Verbosity flags leave nothing over and touch only the verbosity. *)
Lemma scan_flags (argv : list string) :
  forall (ns : Namespace) (s : State),
    Forall (fun t => t ∈ ["-v"; "--verbose"; "-q"; "--quiet"]) argv ->
    well_formed ns ->
    exists ns',
      well_formed ns' /\
      (forall k, k <> "verbosity" -> ns' !! k = ns !! k) /\
      forall rest, scan (argv ++ rest)%list ns s = scan rest ns' s.
Proof.
  induction argv as [|tok argv IH]; intros ns s Hflags Hwf.
  - by exists ns.
  - apply Forall_cons in Hflags as [Htok Hflags].
    assert (Hcase : tok ∈ ["-v"; "--verbose"] \/ tok ∈ ["-q"; "--quiet"]).
    { rewrite !elem_of_cons in Htok |- *. tauto. }
    destruct Hcase as [Hv|Hq].
    + destruct (count_up_well_formed ns s Hwf) as (k & _ & Hk).
      destruct (IH (<["verbosity" := VInt (k + 1)]> ns) s Hflags)
        as (ns' & Hwf' & Hkeys & Hscan); [by apply well_formed_verbosity|].
      exists ns'. split; [done|]. split.
      * intros j Hj. rewrite Hkeys by done. by rewrite lookup_insert_ne.
      * intros rest. rewrite <- app_comm_cons.
        unfold scan. rewrite (scan_verbose _ _ _ _ _ Hv).
        rewrite (bind_step _ _ _ _ _ Hk). apply Hscan.
    + destruct (IH (<["verbosity" := VInt 0]> ns) s Hflags)
        as (ns' & Hwf' & Hkeys & Hscan); [by apply well_formed_verbosity|].
      exists ns'. split; [done|]. split.
      * intros j Hj. rewrite Hkeys by done. by rewrite lookup_insert_ne.
      * intros rest. rewrite <- app_comm_cons.
        unfold scan. rewrite (scan_quiet _ _ _ _ _ Hq). apply Hscan.
Qed.

End VerbosityFlags.

(** X6. Without a subcommand, that is on a command line of verbosity
    flags only (the empty one too), [main] ends in a KeyError: no
    subcommand name is parsed and [actions] has no entry for [None].
    The modules that import register, and none is named [help]. *)
Theorem no_subcommand_is_key_error
        (w : World) (argv : list string) (n : nat) (s : State) :
  Forall (fun t => t ∈ ["-v"; "--verbose"; "-q"; "--quiet"]) argv ->
  (forall e, pkg_version w = Err e -> exn_cls e = DistributionNotFound) ->
  "help" ∉ sc_modules (subcommands w) ->
  loads w (sc_modules (subcommands w)) ->
  (forall ns s0, exists ns' s', sc_action (subcommands w) ns s0 = (Returned ns', s')) ->
  (main (S n) w argv s).1 = Raised (Exn KeyError "None").
Proof.
  intros Hflags Hpkg Hhelp Hloads Haction.
  destruct (scan_flags (fs w) (parser_help global_parser) argv
              (<["verbosity" := VInt 0]> (<["log" := VFile StdOut]> ∅)) s
              Hflags prescan_defaults_well_formed)
    as (ns & Hwf & Hkeys & Hscan).
  assert (Hpre : parse_known_args (fs w) global_parser argv ∅ s
                 = (Returned (ns, []), s)).
  { rewrite prescan_unfold. rewrite <- (app_nil_r argv). by rewrite Hscan. }
  change (main (S n) w argv s) with (main_body (main n w) w argv s).
  destruct (main_body_reaches_parse (main n w) w argv s ns [] Hpre Hpkg Hhelp
                                    (loads_considered w [] Hloads))
    as (v & sub & acts & s2 & -> & _ & Hdest & _).
  rewrite (bind_step _ _ _ _ _
             (parse_args_no_subcommand _ _ _ _ _ Hdest Hwf
                (eq_trans (Hkeys "subparser_name" ltac:(done)) eq_refl))).
  unfold dispatch. rewrite lookup_insert_eq.
  rewrite decide_False by done.
  destruct (Haction (<["subparser_name" := VNone]> ns) s2) as (ns' & s' & Hact).
  by rewrite (bind_step _ _ _ _ _ Hact).
Qed.

Lemma no_subcommand_is_key_error_witness :
  (main 1 Scenario.checkout ["-v"; "-q"] initial).1
  = Raised (Exn KeyError "None").
Proof.
  apply no_subcommand_is_key_error.
  - repeat constructor; rewrite !elem_of_cons; auto.
  - intros e [= <-]. reflexivity.
  - simpl. intros Hin. token_absurd Hin.
  - apply checkout_loads.
  - intros ns s0. by eexists _, _.
Defined.

(** A word that names no parser is a usage error. *)
Lemma parse_loop_invalid_choice
      (fs : FileSystem) (text : string) (args : list Argument)
      (sub : Subparsers) (tok : string) (rest : list string) (ns : Namespace) :
  find_argument args tok = None -> optionlike tok = false ->
  name_parser_map sub !! tok = None ->
  parse_loop fs text args [] (Some sub) (tok :: rest) ns
  = usage_error "invalid choice".
Proof. intros Hfind Hopt Hp. cbn [parse_loop]. by rewrite Hfind, Hopt, Hp. Qed.

(** X7. A first word that is neither [help] nor the name of a
    subcommand module is refused: [main] exits with status 2, whatever
    words and fully written options follow it (short of a log file to
    open). The modules that import register, and none is named
    [help]. *)
Theorem unknown_subcommand_exits
        (w : World) (x : string) (rest : list string) (n : nat) (s : State) :
  startswith x "-" = false -> x <> "help" ->
  x ∉ sc_modules (subcommands w) ->
  Forall (fun t => exact_token t = true) rest ->
  (forall t, t ∈ rest -> t ∉ ["-l"; "--log"]) ->
  (forall e, pkg_version w = Err e -> exn_cls e = DistributionNotFound) ->
  "help" ∉ sc_modules (subcommands w) ->
  loads w (sc_modules (subcommands w)) ->
  (main (S n) w (x :: rest) s).1 = Exited 2.
Proof.
  intros Hword Hnothelp Hx _ Hrest Hpkg Hhelp Hloads.
  destruct (scan_returns (fs w) (parser_help global_parser) rest
              (<["verbosity" := VInt 0]> (<["log" := VFile StdOut]> ∅)) s
              Hrest prescan_defaults_well_formed)
    as (ns & extras & Hscan).
  assert (Hpre : parse_known_args (fs w) global_parser (x :: rest) ∅ s
                 = (Returned (ns, x :: extras), s)).
  { rewrite prescan_unfold, scan_other; [|word_not_option Hword..].
    by rewrite (bind_step _ _ _ _ _ Hscan). }
  change (main (S n) w (x :: rest) s)
    with (main_body (main n w) w (x :: rest) s).
  destruct (main_body_reaches_parse (main n w) w (x :: rest) s ns
                                    (x :: extras) Hpre Hpkg Hhelp
                                    (loads_considered w _ Hloads))
    as (v & sub & acts & s2 & -> & Hwf & _ & _ & _ & _ & Hout & _).
  assert (Hnone : name_parser_map sub !! x = None).
  { apply Hout; [|done]. intros Hin. by apply considered_subset in Hin. }
  unfold argparse.parse_args, parse_known_args.
  cbn [full_parser arguments subparsers].
  change (filter is_positional [log_argument; verbose_argument; quiet_argument;
                                version_argument v; main_help_argument])
    with (@nil Argument).
  rewrite parse_loop_invalid_choice;
    [done|by apply find_full_word|by apply optionlike_word|done].
Qed.

Lemma unknown_subcommand_exits_witness :
  (main 1 Scenario.checkout ["clasify"; "-v"; "reads.csv"] initial).1 = Exited 2.
Proof.
  apply unknown_subcommand_exits.
  - reflexivity.
  - discriminate.
  - simpl. intros Hin. token_absurd Hin.
  - repeat constructor.
  - intros t Ht Hl. token_cases Ht; token_absurd Hl.
  - intros e [= <-]. reflexivity.
  - simpl. intros Hin. token_absurd Hin.
  - apply checkout_loads.
Defined.

(** In a fresh process and without global options, [main] arrives at
    the parse of the command line with logging at ERROR on standard
    output and one error line written for each considered module that
    does not import. *)
Lemma main_body_fresh
      (self : list string -> M (option value)) (w : World)
      (argv : list string) (s : State) (extras : list string) :
  (forall s', parse_known_args (fs w) global_parser argv ∅ s'
              = (Returned (<["verbosity" := VInt 0]>
                             (<["log" := VFile StdOut]> ∅), extras), s')) ->
  root_handler s = None ->
  (forall e, pkg_version w = Err e -> exn_cls e = DistributionNotFound) ->
  "help" ∉ sc_modules (subcommands w) ->
  loads w (considered w extras) ->
  exists sub acts,
    main_body self w argv s
    = (let* namespace :=
         argparse.parse_args
           (fs w) (full_parser (installed_version w) sub) extras
           (<["verbosity" := VInt 0]> (<["log" := VFile StdOut]> ∅)) in
       dispatch self w acts namespace)
        (mkState (Some (Config StdOut "classifier %(message)s" ERROR))
                 (written s
                  ++ map (LogLine StdOut "classifier %(message)s" ERROR)
                         (import_errors w (considered w extras)))) /\
    assembled w (considered w extras) sub acts.
Proof.
  intros Hscan Hs Hpkg Hhelp Hloads.
  rewrite (main_body_defaults self w argv extras s Hscan Hs).
  destruct (main_body_configured
              self w argv
              (mkState (Some (Config StdOut "classifier %(message)s" ERROR))
                       (written s))
              _ _ _ eq_refl eq_refl (Hscan _) Hpkg Hhelp Hloads)
    as (sub & acts & Hrun & Hasm).
  exists sub, acts. split; [exact Hrun|exact Hasm].
Qed.



(** ** -V *)

(** X9. [-V] (or [--version]) alone, in a fresh process: [main] exits
    with status 0 after writing, on standard output, one error line for
    each subcommand module that does not import and then the version.
    The version is that of the installed package, or 0.0.0 when the
    package is not installed or its version is empty. The modules that
    import register, and none is named [help]. *)
Theorem version_flag_prints_version
        (w : World) (tok : string) (n : nat) (s : State) :
  tok ∈ ["-V"; "--version"] ->
  tok ∉ sc_modules (subcommands w) ->
  root_handler s = None ->
  (forall e, pkg_version w = Err e -> exn_cls e = DistributionNotFound) ->
  "help" ∉ sc_modules (subcommands w) ->
  loads w (sc_modules (subcommands w)) ->
  main (S n) w [tok] s
  = (Exited 0,
     mkState (Some (Config StdOut "classifier %(message)s" ERROR))
             (written s
              ++ map (LogLine StdOut "classifier %(message)s" ERROR)
                     (import_errors w (sc_modules (subcommands w)))
              ++ [VersionText (installed_version w)])).
Proof.
  intros Htok Hmod Hs Hpkg Hhelp Hloads.
  assert (Hpre : forall s',
             parse_known_args (fs w) global_parser [tok] ∅ s'
             = (Returned (<["verbosity" := VInt 0]>
                            (<["log" := VFile StdOut]> ∅), [tok]), s')).
  { intros s'. rewrite prescan_unfold, scan_other; [done|..];
      intros Hin; token_cases Htok; token_absurd Hin. }
  change (main (S n) w [tok] s) with (main_body (main n w) w [tok] s).
  destruct (main_body_fresh (main n w) w [tok] s [tok] Hpre Hs Hpkg Hhelp
                            (loads_considered w _ Hloads))
    as (sub & acts & -> & _).
  rewrite considered_unnamed.
  2:{ intros m Hm Hin. apply list_elem_of_singleton in Hin. by subst m. }
  rewrite app_assoc.
  token_cases Htok; reflexivity.
Qed.

Lemma version_flag_prints_version_witness :
  main 1 Scenario.checkout ["--version"] initial
  = (Exited 0,
     mkState (Some (Config StdOut "classifier %(message)s" ERROR))
             [LogLine StdOut "classifier %(message)s" ERROR
                      "No module named pandas";
              VersionText "0.0.0"]).
Proof.
  rewrite (version_flag_prints_version Scenario.checkout "--version" 0 initial).
  - reflexivity.
  - rewrite !elem_of_cons. auto.
  - simpl. intros Hin. token_absurd Hin.
  - reflexivity.
  - intros e [= <-]. reflexivity.
  - simpl. intros Hin. token_absurd Hin.
  - apply checkout_loads.
Defined.

(** ** -l FILE *)

(** X10. When the file given to [-l] (or [--log]) cannot be opened,
    [main] stops in its first phase, before logging is configured: a
    TypeError or ValueError of the open is reported as a usage error
    with exit status 2, any other exception (an OSError, say) leaves
    [main] as it is, with nothing written. What follows the file on
    the command line is words and fully written options. *)
Theorem log_open_failure
        (w : World) (tok f : string) (rest : list string) (e : exn)
        (n : nat) (s : State) :
  tok ∈ ["-l"; "--log"] -> optionlike f = false ->
  Forall (fun t => exact_token t = true) rest ->
  opener (fs w) "a" (Name f) = Raised e ->
  main (S n) w (tok :: f :: rest) s
  = if bool_decide (exn_cls e = TypeError \/ exn_cls e = ValueError)
    then (Exited 2,
          mkState (root_handler s) (written s ++ [UsageError "invalid value"]))
    else (Raised e, s).
Proof.
  intros Htok Hopt _ Hopen.
  change (main (S n) w (tok :: f :: rest) s)
    with (main_body (main n w) w (tok :: f :: rest) s).
  rewrite main_body_dispatch, prescan_unfold, scan_log by done.
  rewrite Hopt. unfold convert. rewrite Hopen.
  case_bool_decide; reflexivity.
Qed.

Lemma log_open_failure_witness :
  main 1 (mkWorld Scenario.read_only_fs
                  "/src/classifier" (fun _ => Ok Scenario.describe_output)
                  (Ok "0.3.1") Scenario.package Scenario.import_ true)
       ["-l"; "run.log"; "classify"] initial
  = (Raised (Exn OSError "Permission denied"), initial).
Proof.
  rewrite (log_open_failure _ "-l" "run.log" ["classify"]
                            (Exn OSError "Permission denied") 0 initial).
  - reflexivity.
  - rewrite !elem_of_cons. auto.
  - reflexivity.
  - repeat constructor.
  - reflexivity.
Defined.

(** ** version, called before logging is configured *)

(** A message below the level of the root logger is dropped. *)
Lemma logging_below (lvl : level) (msg : string) (s : State) (c : config) :
  root_handler s = Some c -> (levelno lvl < levelno (cfg_level c))%Z ->
  logging_log lvl msg s = (Returned tt, s) /\
  logger_log lvl msg s = (Returned tt, s).
Proof.
  intros Hc Hlt.
  assert (Hlog : logger_log lvl msg s = (Returned tt, s)).
  { unfold logger_log, root_level. rewrite Hc.
    by rewrite (proj2 (Z.leb_gt _ _) Hlt). }
  split; [|exact Hlog].
  unfold logging_log, bind, basicConfig. by rewrite Hc.
Qed.

Lemma version_loop_below (w : World) (cmds : list (list string))
      (s : State) (c : config) :
  root_handler s = Some c -> (levelno DEBUG < levelno (cfg_level c))%Z ->
  version_loop w cmds s = (Returned None, s).
Proof.
  intros Hc Hlt. induction cmds as [|cmd cmds IH]; [done|].
  cbn [version_loop].
  destruct (logging_below DEBUG (String.concat " " cmd) s c Hc Hlt) as [Hl _].
  rewrite (bind_step _ _ _ _ _ Hl).
  unfold bind at 1, try_except. unfold bind at 1.
  destruct (describe_raises w cmd s) as [e ->].
  unfold bind at 1.
  destruct (logging_below DEBUG (exn_msg e) s c Hc Hlt) as [_ ->].
  exact IH.
Qed.

(** The first [logging.debug] of the loop configures the root logger
    with the defaults. *)
Lemma version_loop_first (w : World) (cmd : list string)
      (cmds : list (list string)) (s : State) :
  root_handler s = None ->
  version_loop w (cmd :: cmds) s
  = version_loop w cmds
      (mkState (Some (Config StdErr BASIC_FORMAT WARNING)) (written s)).
Proof.
  intros Hs.
  set (s1 := mkState (Some (Config StdErr BASIC_FORMAT WARNING)) (written s)).
  assert (Hfirst : forall msg, logging_log DEBUG msg s = (Returned tt, s1)).
  { intros msg. unfold logging_log, bind, basicConfig. rewrite Hs.
    unfold logger_log, root_level. reflexivity. }
  change (version_loop w (cmd :: cmds))
    with (let* _ := logging_log DEBUG (String.concat " " cmd) in
          let* r := try_except
                      (let* v := describe w cmd in ret (Some v))
                      (fun e => let* _ := logger_log DEBUG (exn_msg e) in
                                ret None) in
          match r with
          | Some v => ret (Some v)
          | None => version_loop w cmds
          end).
  rewrite (bind_step _ _ _ _ _ (Hfirst _)).
  unfold bind at 1, try_except. unfold bind at 1.
  destruct (describe_raises w cmd s1) as [e ->].
  unfold bind at 1.
  by destruct (logging_below DEBUG (exn_msg e) s1 _ eq_refl) as [_ ->].
Qed.

Lemma version_loop_fresh (w : World) (s : State) :
  root_handler s = None ->
  version_loop w (git_cmds w) s
  = (Returned None,
     mkState (Some (Config StdErr BASIC_FORMAT WARNING)) (written s)).
Proof.
  intros Hs. unfold git_cmds. rewrite version_loop_first by done.
  by apply (version_loop_below
              w _ (mkState (Some (Config StdErr BASIC_FORMAT WARNING))
                           (written s))
              (Config StdErr BASIC_FORMAT WARNING)).
Qed.

(** X11. [version] called in a process whose logging is not
    configured yet (as setup.py does) configures it: on return the root
    logger writes to standard error at WARNING in the basic format, a
    package that is not installed has cost one warning line there, and
    a later [setup_logging] changes nothing, whatever its namespace
    asks for. *)
Theorem version_configures_logging (w : World) (s : State) :
  root_handler s = None ->
  (forall e, pkg_version w = Err e -> exn_cls e = DistributionNotFound) ->
  exists v s',
    version w s = (Returned v, s') /\
    root_handler s' = Some (Config StdErr BASIC_FORMAT WARNING) /\
    written s'
    = (written s
       ++ match pkg_version w with
          | Ok _ => []
          | Err e => [LogLine StdErr BASIC_FORMAT WARNING (exn_msg e)]
          end)%list /\
    forall ns, well_formed ns -> setup_logging ns s' = (Returned tt, s').
Proof.
  intros Hs Hpkg. unfold version.
  rewrite (bind_step _ _ _ _ _ (version_loop_fresh w s Hs)).
  unfold after_queries.
  destruct (pkg_version w) as [pv|e] eqn:Hv.
  - eexists _, _. split; [reflexivity|]. split; [reflexivity|].
    split; [by rewrite app_nil_r|].
    intros ns Hwf. eapply setup_logging_configured; [done|reflexivity].
  - rewrite bool_decide_eq_true_2 by (by apply Hpkg).
    eexists _, _. split; [reflexivity|]. split; [reflexivity|].
    split; [reflexivity|].
    intros ns Hwf. eapply setup_logging_configured; [done|reflexivity].
Qed.

Lemma version_configures_logging_witness :
  exists s',
    version Scenario.checkout initial = (Returned "0.0.0", s') /\
    written s' = [LogLine StdErr BASIC_FORMAT WARNING "classifier"] /\
    setup_logging (<["verbosity" := VInt 3]> (<["log" := VFile StdOut]> ∅)) s'
    = (Returned tt, s').
Proof.
  destruct (version_configures_logging Scenario.checkout initial)
    as (v & s' & Hrun & _ & Hwritten & Hsetup).
  - reflexivity.
  - intros e [= <-]. reflexivity.
  - exists s'. split; [|split].
    + pose proof (version_lookup_not_found
                    Scenario.checkout initial _ eq_refl eq_refl) as Hv.
      rewrite Hrun in Hv. simpl in Hv. injection Hv as ->. exact Hrun.
    + exact Hwritten.
    + apply Hsetup. split; [by exists StdOut|by exists 3%Z].
Defined.

(** ** help without an action *)

(** X12. [help] alone is a usage error: the parser of the [help]
    subcommand requires its one positional, and [main] exits with
    status 2. The modules that import register, and none is named
    [help]. *)
Theorem help_without_action_exits (w : World) (n : nat) (s : State) :
  "help" ∉ sc_modules (subcommands w) ->
  (forall e, pkg_version w = Err e -> exn_cls e = DistributionNotFound) ->
  loads w (sc_modules (subcommands w)) ->
  (main (S n) w ["help"] s).1 = Exited 2.
Proof.
  intros Hhelp Hpkg Hloads.
  change (main (S n) w ["help"] s) with (main_body (main n w) w ["help"] s).
  destruct (main_body_reaches_parse (main n w) w ["help"] s _ _
              (prescan_word (fs w) "help" s eq_refl) Hpkg Hhelp
              (loads_considered w _ Hloads))
    as (v & sub & acts & s2 & -> & _ & _ & _ & Hparser & _).
  by rewrite (parse_args_subcommand _ _ _ _ _ _ help_parser).
Qed.

Lemma help_without_action_exits_witness :
  (main 1 Scenario.checkout ["help"] initial).1 = Exited 2.
Proof.
  apply help_without_action_exits.
  - simpl. intros Hin. token_absurd Hin.
  - intros e [= <-]. reflexivity.
  - apply checkout_loads.
Defined.

(** Where a module that imports has no docstring, [help] alone does
    not get to the usage error: all modules are considered and the
    loop raises. *)
Example help_alone_needs_docstrings :
  (main 1 Scenario.undocumented ["help"] initial).1
  = Raised (Exn AttributeError "'NoneType' object has no attribute 'lstrip'").
Proof. reflexivity. Qed.

(** ** Which modules are loaded *)



(** ** The order of the groups *)

Section GroupingOrder.
Context {A K : Type} `{Countable K}.
Variable ltb : K -> K -> bool.
Variable key : A -> K.

Hypothesis ltb_irrefl : forall a, ltb a a = false.
Hypothesis ltb_trans :
  forall a b c, ltb a b = true -> ltb b c = true -> ltb a c = true.
Hypothesis ltb_total : forall a b, a <> b -> ltb a b = true \/ ltb b a = true.

(** X14. The groups come in the order of their keys, each key
    smaller than the next. *)
Theorem groupbyl_keys_increase (li : list A) :
  exists gs,
    groupbyl ltb key li false = Pairs gs /\
    Sorted (fun a b => ltb a b = true) gs.*1.
Proof.
  exists (groupby key (sorted ltb key li)). split; [done|].
  pose proof (sorted_sorted ltb key ltb_irrefl ltb_trans li) as Hs.
  destruct (sorted ltb key li) as [|x l]; simpl; [constructor|].
  apply Sorted_inv in Hs as [Hs Hx].
  destruct (groupby_from_keys ltb key ltb_total l (key x) [x] Hs)
    as (rest & -> & Hsorted); [|done].
  intros z Hz. destruct l as [|z' l]; [done|].
  injection Hz as ->. by apply HdRel_inv in Hx.
Qed.

End GroupingOrder.

Lemma groupbyl_keys_increase_witness :
  exists gs,
    groupbyl Scenario.ascii_ltb fst Scenario.records false = Pairs gs /\
    Sorted (fun a b => Scenario.ascii_ltb a b = true) gs.*1.
Proof.
  apply (groupbyl_keys_increase Scenario.ascii_ltb (@fst ascii nat)).
  - intros a. apply Nat.ltb_irrefl.
  - intros a b c. unfold Scenario.ascii_ltb. rewrite !Nat.ltb_lt. lia.
  - intros a b Hne. unfold Scenario.ascii_ltb. rewrite !Nat.ltb_lt.
    assert (nat_of_ascii a <> nat_of_ascii b).
    { intros Heq. apply Hne.
      by rewrite <- (ascii_nat_embedding a), <- (ascii_nat_embedding b), Heq. }
    lia.
Defined.

(** ** -h *)



(** ** -l FILE, when the open succeeds *)

(** Without [-l] the first phase returns and keeps the log stream. *)
Lemma scan_keeps_log (fs : FileSystem) (text : string) (argv : list string) :
  forall (ns : Namespace) (s : State),
    (forall t, t ∈ argv -> t ∉ ["-l"; "--log"]) -> well_formed ns ->
    exists ns' extras,
      parse_loop fs text [log_argument; verbose_argument; quiet_argument]
                 [] None argv ns s
      = (Returned (ns', extras), s) /\
      well_formed ns' /\ ns' !! "log" = ns !! "log".
Proof.
  induction argv as [|tok rest IH]; intros ns s Hnl Hwf.
  - by exists ns, [].
  - assert (Hl : tok ∉ ["-l"; "--log"]) by (apply Hnl; rewrite elem_of_cons; auto).
    assert (Hrest : forall t, t ∈ rest -> t ∉ ["-l"; "--log"])
      by (intros t Ht; apply Hnl; rewrite elem_of_cons; auto).
    destruct (decide (tok ∈ ["-v"; "--verbose"])) as [Hv|Hv].
    { rewrite (scan_verbose _ _ _ _ _ Hv).
      destruct (count_up_well_formed ns s Hwf) as (k & _ & Hk).
      rewrite (bind_step _ _ _ _ _ Hk).
      destruct (IH (<["verbosity" := VInt (k + 1)]> ns) s Hrest)
        as (ns' & extras & Hscan & Hwf' & Hlog);
        [by apply well_formed_verbosity|].
      exists ns', extras. split; [done|]. split; [done|].
      by rewrite Hlog, lookup_insert_ne. }
    destruct (decide (tok ∈ ["-q"; "--quiet"])) as [Hq|Hq].
    { rewrite (scan_quiet _ _ _ _ _ Hq).
      destruct (IH (<["verbosity" := VInt 0]> ns) s Hrest)
        as (ns' & extras & Hscan & Hwf' & Hlog);
        [by apply well_formed_verbosity|].
      exists ns', extras. split; [done|]. split; [done|].
      by rewrite Hlog, lookup_insert_ne. }
    rewrite scan_other by done.
    destruct (IH ns s Hrest Hwf) as (ns' & extras & Hscan & Hwf' & Hlog).
    rewrite (bind_step _ _ _ _ _ Hscan). by eexists _, _.
Qed.

(** X16. The file given to [-l] (or [--log]) is opened by
    [utils.opener] in append mode, and what the open returns is the
    stream [setup_logging] configures the root logger with; nothing is
    written on the way. What follows the file on the command line is
    words and fully written options, none of them [-l] or [--log]. *)
Theorem log_option_sets_stream
        (fs : FileSystem) (tok f : string) (rest : list string) (st : stream)
        (s : State) :
  tok ∈ ["-l"; "--log"] -> optionlike f = false ->
  opener fs "a" (Name f) = Returned st ->
  Forall (fun t => exact_token t = true) rest ->
  (forall t, t ∈ rest -> t ∉ ["-l"; "--log"]) ->
  root_handler s = None ->
  exists ns extras c,
    parse_known_args fs global_parser (tok :: f :: rest) ∅ s
    = (Returned (ns, extras), s) /\
    setup_logging ns s = (Returned tt, mkState (Some c) (written s)) /\
    cfg_stream c = st.
Proof.
  intros Htok Hopt Hopen _ Hrest Hs.
  rewrite prescan_unfold, scan_log by done.
  rewrite Hopt. unfold convert. rewrite Hopen.
  destruct (scan_keeps_log
              fs (parser_help global_parser) rest
              (<["log" := VFile st]>
                 (<["verbosity" := VInt 0]> (<["log" := VFile StdOut]> ∅))) s
              Hrest)
    as (ns & extras & Hscan & [_ [k Hk]] & Hlog).
  { apply well_formed_log, prescan_defaults_well_formed. }
  rewrite lookup_insert_eq in Hlog.
  exists ns, extras. eexists. split; [exact Hscan|].
  split; [by apply (setup_logging_fresh ns st k s)|done].
Qed.

Lemma log_option_sets_stream_witness :
  exists ns extras c,
    parse_known_args Scenario.plain_fs global_parser
                     ["-l"; "run.log"; "-v"; "classify"] ∅ initial
    = (Returned (ns, extras), initial) /\
    setup_logging ns initial = (Returned tt, mkState (Some c) []) /\
    cfg_stream c = FileObject Plain "run.log" "a".
Proof.
  apply (log_option_sets_stream Scenario.plain_fs "-l" "run.log"
                                ["-v"; "classify"]).
  - rewrite !elem_of_cons. auto.
  - reflexivity.
  - reflexivity.
  - repeat constructor.
  - intros t Ht Hl. token_cases Ht; token_absurd Hl.
  - reflexivity.
Defined.

(** ** get_compression of an opened file *)

(** X17. [get_compression] is for names: of what [opener] returns
    for a name it accepts standard output only (the name [-] in a mode
    without r), and raises a TypeError for every other file object. *)
Theorem get_compression_of_opened
        (fs : FileSystem) (mode f : string) (st : stream) :
  opener fs mode (Name f) = Returned st ->
  (f = "-" /\ char_in "r" mode = false /\
   get_compression (Stream st) = Returned None) \/
  (~ (f = "-" /\ char_in "r" mode = false) /\
   get_compression (Stream st)
   = Raised (Exn TypeError "expected str, bytes or os.PathLike object")).
Proof.
  unfold opener, open_file, open_with.
  destruct (String.eqb_spec f "-") as [->|Hne].
  - destruct (char_in "r" mode) eqn:Hr; intros [= <-].
    + right. split; [|done]. by intros [_ ?].
    + by left.
  - intros Hopen. right. split; [by intros [? _]|].
    destruct (endswith f ".bz2"); [|destruct (endswith f ".gz")];
      destruct (fs_open fs _ f mode);
      first [discriminate Hopen | by injection Hopen as <-].
Qed.

Lemma get_compression_of_opened_witness :
  get_compression (Stream (FileObject Gzip "hits.csv.gz" "rt"))
  = Raised (Exn TypeError "expected str, bytes or os.PathLike object").
Proof.
  destruct (get_compression_of_opened Scenario.plain_fs "rt" "hits.csv.gz"
                                      (FileObject Gzip "hits.csv.gz" "rt"))
    as [(Hf & _)|(_ & Hraise)].
  - reflexivity.
  - discriminate Hf.
  - exact Hraise.
Defined.
